(** * hcpsdk.ips: name resolution and the round-robin address pool

    A shallow embedding of [src/hcpsdk/ips/__init__.py]: the function
    [query], the class [response], the exception [IpsError] and the class
    [Circle] with its generator closure [__addr].

    Conventions of the embedding:
    - a Python [str] is a [string] (code points below 256);
    - a call that may raise returns a [py] value, [Return v] or [Raise e];
    - the two DNS facilities the module imports ([socket.getaddrinfo] and
      [dns.resolver.query]) are the fields of a record [Net] that every
      operation receives: the answers of the network at the time of the call;
    - every operation reports the external lookups it performed;
    - the generator of [Circle._addr] is run by a step-indexed interpreter of
      its loop; [OutOfFuel] means that the loop has not reached its [yield]
      within the given number of steps. *)

From Stdlib Require Import ZArith String Ascii DecimalString Lia.
From Stdlib Require DecimalZ DecimalPos.
From stdpp Require Import base list strings.

Open Scope string_scope.

(** ** Python primitives used by the module *)

Inductive exn : Type :=
  | IpsError (reason : string)
  | IndexError
  | ValueError
  | TypeError
  | StopIteration.

Inductive py (A : Type) : Type :=
  | Return (v : A)
  | Raise (e : exn).
Arguments Return {A} v.
Arguments Raise {A} e.

#[global] Instance py_ret : MRet py := fun A v => Return v.

#[global] Instance py_bind : MBind py := fun A B k m =>
  match m with
  | Return v => k v
  | Raise e => Raise e
  end.

(** [s[i]] for a non-negative index. *)
Definition py_index (s : string) (i : nat) : py ascii :=
  match String.get i s with
  | Some ch => Return ch
  | None => Raise IndexError
  end.

(** [s[lo:hi]] for non-negative bounds; slices never raise. *)
Definition py_slice (s : string) (lo hi : nat) : string :=
  String.substring lo (hi - lo) s.

(** [s[lo:]]. *)
Definition py_slice_from (s : string) (lo : nat) : string :=
  String.substring lo (String.length s - lo) s.

(** [s[-n:]]: the last [n] characters, the whole string when it is shorter. *)
Definition py_suffix (s : string) (n : nat) : string :=
  py_slice_from s (String.length s - n).

(** Truth value of a string in a condition. *)
Definition truthy (s : string) : bool :=
  match s with
  | EmptyString => false
  | String _ _ => true
  end.

(** White space skipped by [int(text, base)] around the literal. *)
Definition is_space (ch : ascii) : bool :=
  let n := nat_of_ascii ch in
  ((9 <=? n) && (n <=? 13) || (n =? 32) || (n =? 133) || (n =? 160))%nat.

Definition hex_digit (ch : ascii) : option Z :=
  let n := Z.of_nat (nat_of_ascii ch) in
  if ((48 <=? n) && (n <=? 57))%Z then Some (n - 48)%Z
  else if ((97 <=? n) && (n <=? 102))%Z then Some (n - 87)%Z
  else if ((65 <=? n) && (n <=? 70))%Z then Some (n - 55)%Z
  else None.

Fixpoint lstrip (s : string) : string :=
  match s with
  | String ch rest => if is_space ch then lstrip rest else s
  | EmptyString => EmptyString
  end.

Definition strip (s : string) : string :=
  String.rev (lstrip (String.rev (lstrip s))).

(** The digits of a literal: hexadecimal digits, single underscores allowed
    between two digits only. [seen] tells whether a digit has been read,
    [us] whether the previous character was an underscore. *)
Fixpoint hex_digits (seen us : bool) (acc : Z) (s : string) : option Z :=
  match s with
  | EmptyString => if seen && negb us then Some acc else None
  | String ch rest =>
      if Ascii.eqb ch "_" then
        if seen && negb us then hex_digits seen true acc rest else None
      else
        match hex_digit ch with
        | Some d => hex_digits true false (16 * acc + d)%Z rest
        | None => None
        end
  end.

(** [int(text, 16)]: white space, an optional sign, an optional [0x] prefix
    (which may be followed by one underscore), then the digits. *)
Definition py_int16 (text : string) : py Z :=
  let t := strip text in
  let '(neg, t) :=
    match t with
    | String "-" rest => (true, rest)
    | String "+" rest => (false, rest)
    | _ => (false, t)
    end in
  let t :=
    match t with
    | String "0" (String "x" (String "_" rest)) => rest
    | String "0" (String "X" (String "_" rest)) => rest
    | String "0" (String "x" rest) => rest
    | String "0" (String "X" rest) => rest
    | _ => t
    end in
  match hex_digits false false 0 t with
  | Some v => Return (if neg : bool then (- v)%Z else v)
  | None => Raise ValueError
  end.

(** [str(n)] and ['{}'.format(n)] for an integer. *)
Definition str_of_int (n : Z) : string :=
  NilZero.string_of_int (Z.to_int n).

(** ** The network as the module sees it *)

(** One entry of the list returned by [socket.getaddrinfo]:
    [(family, type, proto, canonname, sockaddr)], with [sockaddr] the pair
    [(address, port)] of an [AF_INET] socket address. *)
Record addrinfo : Type := AddrInfo {
  ai_family : Z;
  ai_type : Z;
  ai_proto : Z;
  ai_canonname : string;
  ai_sockaddr : string * Z
}.

(** Outcome of [socket.getaddrinfo]: the list, or an exception given by its
    [str()]. *)
Inductive gai_result : Type :=
  | GaiList (l : list addrinfo)
  | GaiRaise (msg : string).

(** The exceptions of [dns.resolver.query] that [query] tells apart; none of
    these classes derives from another. *)
Inductive dns_error : Type :=
  | NXDOMAIN
  | YXDOMAIN
  | Timeout
  | NoAnswer
  | NoNameservers
  | NotAbsolute
  | NoRootSOA
  | NoMetaqueries
  | OtherException (msg : string).

(** Outcome of [dns.resolver.query]: an answer whose [rrset] is given by the
    [str()] of each record, or an exception. *)
Inductive dns_result : Type :=
  | DnsAnswer (rrset : list string)
  | DnsRaise (e : dns_error).

Record Net : Type := {
  getaddrinfo : string -> Z -> gai_result;
  resolver_query : string -> dns_result
}.

(** The external lookups an operation performs. *)
Inductive lookup_call : Type :=
  | CallGetaddrinfo (host : string) (port : Z)
  | CallResolverQuery (qname : string).

(** ** class response *)

Record response : Type := Response {
  fqdn : string;
  cache : bool;
  ips : list string;
  raised : string
}.

Definition response_init (name : string) (use_cache : bool) : response :=
  {| fqdn := name; cache := use_cache; ips := []; raised := "" |}.

Definition set_raised (r : response) (msg : string) : response :=
  {| fqdn := fqdn r; cache := cache r; ips := ips r; raised := msg |}.

Definition append_ip (r : response) (ip : string) : response :=
  {| fqdn := fqdn r; cache := cache r; ips := ips r ++ [ip]; raised := raised r |}.

(** ** query *)

(** The message stored in [raised] for each exception of the resolver. *)
Definition dns_error_message (e : dns_error) : string :=
  match e with
  | NXDOMAIN => "NXDOMAIN - The query name does not exist."
  | YXDOMAIN => "The query name is too long after DNAME substitution."
  | Timeout => "The operation timed out."
  | NoAnswer => "The response did not contain an answer to the question."
  | NoNameservers =>
      "NoNameservers - No non-broken nameservers are available to answer the query."
  | NotAbsolute =>
      "Raised if an absolute domain name is required but a relative name was provided."
  | NoRootSOA =>
      "Raised if for some reason there is no SOA at the root name. This should never happen!"
  | NoMetaqueries => "Metaqueries are not allowed."
  | OtherException msg => msg
  end.

(** Lines 187-191: the text of one record of the answer, decoded from the
    generic form when its second character is [#]. *)
Definition normalize (ip : string) : py string :=
  second ← py_index ip 1;
  if Ascii.eqb second "#" then
    let hx := py_suffix ip 8 in
    a ← py_int16 (py_slice hx 0 2);
    b ← py_int16 (py_slice hx 2 4);
    c ← py_int16 (py_slice hx 4 6);
    d ← py_int16 (py_slice_from hx 6);
    Return (str_of_int a +:+ "." +:+ str_of_int b +:+ "." +:+
            str_of_int c +:+ "." +:+ str_of_int d)
  else Return ip.

(** Lines 186-192: the loop over [ips.rrset]. *)
Fixpoint append_records (r : response) (rrset : list string) : py response :=
  match rrset with
  | [] => Return r
  | i :: rest =>
      ip ← normalize i;
      append_records (append_ip r ip) rest
  end.

(** Lines 162-163: the loop over the result of [getaddrinfo]. *)
Fixpoint append_sockaddrs (r : response) (l : list addrinfo) : response :=
  match l with
  | [] => r
  | a :: rest => append_sockaddrs (append_ip r (fst (ai_sockaddr a))) rest
  end.

(** [query(fqdn, cache)]: the lookups performed and the outcome. [cache]
    selects the system resolver, [cache=False] the direct query. *)
Definition query (net : Net) (name : string) (use_cache : bool)
    : list lookup_call * py response :=
  let _response := response_init name use_cache in
  if use_cache then
    ([CallGetaddrinfo name 443],
     match getaddrinfo net name 443 with
     | GaiRaise msg => Return (set_raised _response msg)
     | GaiList l => Return (append_sockaddrs _response l)
     end)
  else
    ([CallResolverQuery name],
     match resolver_query net name with
     | DnsRaise e => Return (set_raised _response (dns_error_message e))
     | DnsAnswer rrset =>
         r ← append_records _response rrset;
         if (length (ips r) =? 0)%nat
         then Return (set_raised r "no response")
         else Return r
     end).

(** ** class Circle *)

(** State of the generator object made by calling the closure [__addr]:
    created and not yet started, suspended at its [yield] (with [it_index]
    the next position of the list iterator of the [for] loop), or finished. *)
Inductive gen : Type :=
  | GenCreated (dnsname : string)
  | GenSuspended (it_index : nat)
  | GenFinished.

Record Circle : Type := MkCircle {
  __authority : string;
  __port : Z;
  _cLock : bool;
  __generator : option gen;
  _addresses : list string
}.

Definition set_cLock (c : Circle) (held : bool) : Circle :=
  {| __authority := __authority c; __port := __port c; _cLock := held;
     __generator := __generator c; _addresses := _addresses c |}.

Definition set_generator (c : Circle) (g : option gen) : Circle :=
  {| __authority := __authority c; __port := __port c; _cLock := _cLock c;
     __generator := g; _addresses := _addresses c |}.

Definition set_addresses (c : Circle) (l : list string) : Circle :=
  {| __authority := __authority c; __port := __port c; _cLock := _cLock c;
     __generator := __generator c; _addresses := l |}.

Definition set_port (c : Circle) (p : Z) : Circle :=
  {| __authority := __authority c; __port := p; _cLock := _cLock c;
     __generator := __generator c; _addresses := _addresses c |}.

(** Control points of lines 93-95 between two [yield]s. *)
Inductive loop_pc : Type :=
  | AtWhile
  | AtFor (it_index : nat).

(** Run [while True: for ipadr in self._addresses: yield str(ipadr)] from a
    control point up to the next [yield]: the value yielded and the position
    of the list iterator at the suspension. One unit of fuel per test of a
    loop head. *)
Fixpoint run_loop (fuel : nat) (pc : loop_pc) (addrs : list string)
    : option (string * nat) :=
  match fuel with
  | O => None
  | S fuel' =>
      match pc with
      | AtWhile => run_loop fuel' (AtFor 0) addrs
      | AtFor i =>
          match addrs !! i with
          | Some ipadr => Some (ipadr, S i)
          | None => run_loop fuel' AtWhile addrs
          end
      end
  end.

(** What [next(generator)] does to the generator and to the object. *)
Inductive resumed : Type :=
  | Yielded (v : string) (g : gen) (c : Circle)
  | Thrown (e : exn) (c : Circle)
  | Spinning.

Definition resume_loop (fuel : nat) (pc : loop_pc) (c : Circle) : resumed :=
  match run_loop fuel pc (_addresses c) with
  | Some (v, i) => Yielded v (GenSuspended i) c
  | None => Spinning
  end.

(** [next(g)] for a generator of [__addr]. A generator that raises is
    finished. *)
Definition gen_next (fuel : nat) (net : Net) (g : gen) (c : Circle)
    : list lookup_call * resumed :=
  match g with
  | GenCreated dnsname =>
      let c := set_addresses c [] in
      let '(calls, result) := query net dnsname true in
      (calls,
       match result with
       | Raise e => Thrown e c
       | Return result =>
           if truthy (raised result) then Thrown (IpsError (raised result)) c
           else resume_loop fuel AtWhile (set_addresses c (ips result))
       end)
  | GenSuspended i => ([], resume_loop fuel (AtFor i) c)
  | GenFinished => ([], Thrown StopIteration c)
  end.

(** Outcome of a method call: it returns, it raises, it waits for a lock
    that is never released, or its loop has not ended within the fuel. In the
    first two cases the state of the object after the call is given. *)
Inductive outcome (A : Type) : Type :=
  | Ret (v : A) (c : Circle)
  | Exc (e : exn) (c : Circle)
  | Blocked
  | OutOfFuel.
Arguments Ret {A} v c.
Arguments Exc {A} e c.
Arguments Blocked {A}.
Arguments OutOfFuel {A}.

(** The condition [if fqdn:] on a parameter whose default is [None]. *)
Definition given (name : option string) : option string :=
  match name with
  | Some s => if truthy s then Some s else None
  | None => None
  end.

(** [Circle._addr(self, fqdn=None)], lines 97-103. The lock is released on
    the normal path only. *)
Definition _addr (fuel : nat) (net : Net) (name : option string) (c : Circle)
    : list lookup_call * outcome string :=
  if _cLock c then ([], Blocked)
  else
    let c := set_cLock c true in
    let c :=
      match given name with
      | Some s => set_generator c (Some (GenCreated s))
      | None => c
      end in
    match __generator c with
    | None => ([], Exc TypeError c)
    | Some g =>
        let '(calls, r) := gen_next fuel net g c in
        (calls,
         match r with
         | Yielded myaddr g' c' =>
             Ret myaddr (set_cLock (set_generator c' (Some g')) false)
         | Thrown e c' => Exc e (set_generator c' (Some GenFinished))
         | Spinning => OutOfFuel
         end)
    end.

Definition discard {A} (o : outcome A) : outcome unit :=
  match o with
  | Ret _ c => Ret tt c
  | Exc e c => Exc e c
  | Blocked => Blocked
  | OutOfFuel => OutOfFuel
  end.

(** [Circle.__init__(self, fqdn, port)]: on [Ret] the state is the new
    object; on [Exc] no object is handed to the caller. *)
Definition Circle_init (fuel : nat) (net : Net) (name : string) (port : Z)
    : list lookup_call * outcome unit :=
  let self :=
    {| __authority := name; __port := port; _cLock := false;
       __generator := None; _addresses := [] |} in
  let '(calls, o) := _addr fuel net (Some (__authority self)) self in
  (calls, discard o).

(** [Circle.refresh(self)]. *)
Definition refresh (fuel : nat) (net : Net) (c : Circle)
    : list lookup_call * outcome unit :=
  let '(calls, o) := _addr fuel net (Some (__authority c)) c in
  (calls, discard o).

(** The call [_addr()] without parameter, the pool's request for the next
    address. *)
Definition next_address (fuel : nat) (net : Net) (c : Circle)
    : list lookup_call * outcome string :=
  _addr fuel net None c.

(** [k] requests in a row; [None] as soon as one of them does not return. *)
Fixpoint serve (fuel : nat) (net : Net) (k : nat) (c : Circle)
    : option (list string * Circle) :=
  match k with
  | O => Some ([], c)
  | S k' =>
      match snd (next_address fuel net c) with
      | Ret a c' =>
          match serve fuel net k' c' with
          | Some (l, c'') => Some (a :: l, c'')
          | None => None
          end
      | _ => None
      end
  end.

(** A network whose system resolver answers [l] for every name. *)
Definition system_net (l : list string) : Net :=
  {| getaddrinfo := fun _ port =>
       GaiList (map (fun a => AddrInfo 2 2 17 "" (a, port)) l);
     resolver_query := fun _ => DnsRaise NoNameservers |}.

(** A network on which every lookup fails. *)
Definition down_net : Net :=
  {| getaddrinfo := fun _ _ =>
       GaiRaise "[Errno -2] Name or service not known";
     resolver_query := fun _ => DnsRaise Timeout |}.

Definition three : list string := ["10.0.0.1"; "10.0.0.2"; "10.0.0.3"].

(** ** Invariants of the pool *)

(** The pool serves: the lock is free and the generator is suspended inside
    the [for] loop over a non-empty list, its iterator at [i]. *)
Record Populated (c : Circle) (i : nat) : Prop := {
  pop_lock : _cLock c = false;
  pop_gen : __generator c = Some (GenSuspended i);
  pop_range : 1 <= i <= length (_addresses c);
  pop_authority : truthy (__authority c) = true
}.

(** The state a failed resolution leaves behind. *)
Record Broken (c : Circle) : Prop := {
  broken_lock : _cLock c = true;
  broken_gen : __generator c = Some GenFinished;
  broken_addresses : _addresses c = []
}.

(** The states a caller can hold: an object returned by the constructor,
    then the state after any call that returned or raised. *)
Inductive reachable : Circle -> Prop :=
  | reach_init fuel net name port calls c :
      Circle_init fuel net name port = (calls, Ret tt c) -> reachable c
  | reach_next fuel net calls a c c' :
      reachable c -> next_address fuel net c = (calls, Ret a c') -> reachable c'
  | reach_next_exc fuel net calls e c c' :
      reachable c -> next_address fuel net c = (calls, Exc e c') -> reachable c'
  | reach_refresh fuel net calls c c' :
      reachable c -> refresh fuel net c = (calls, Ret tt c') -> reachable c'
  | reach_refresh_exc fuel net calls e c c' :
      reachable c -> refresh fuel net c = (calls, Exc e c') -> reachable c'.

(** The same, through calls that all returned. *)
Inductive unfailed : Circle -> Prop :=
  | unf_init fuel net name port calls c :
      Circle_init fuel net name port = (calls, Ret tt c) -> unfailed c
  | unf_next fuel net calls a c c' :
      unfailed c -> next_address fuel net c = (calls, Ret a c') -> unfailed c'
  | unf_refresh fuel net calls c c' :
      unfailed c -> refresh fuel net c = (calls, Ret tt c') -> unfailed c'.

(** The addresses [getaddrinfo] returned, as [query] collects them. *)
Definition sockaddr_hosts (l : list addrinfo) : list string :=
  map (fun a => fst (ai_sockaddr a)) l.

(** ** States left by a resolution *)

(** The object after a resolution that installed [l]. *)
Definition installed (c : Circle) (l : list string) : Circle :=
  {| __authority := __authority c; __port := __port c; _cLock := false;
     __generator := Some (GenSuspended 1); _addresses := l |}.

(** The object after a resolution that raised. *)
Definition wrecked (c : Circle) : Circle :=
  {| __authority := __authority c; __port := __port c; _cLock := true;
     __generator := Some GenFinished; _addresses := [] |}.

(** ** Sample networks and pools *)

(** The pool the constructor returns when the system resolver answers
    [three]. *)
Definition sample_pool : Circle :=
  MkCircle "hcp.example.com" 443 false (Some (GenSuspended 1)) three.

(** A network whose two resolvers disagree. *)
Definition split_net : Net :=
  {| getaddrinfo := fun _ port =>
       GaiList [AddrInfo 2 2 17 "" ("10.0.0.1", port)];
     resolver_query := fun _ => DnsAnswer ["10.9.9.9"] |}.

(** A network whose lookups raise an exception with an empty [str()]. *)
Definition silent_net : Net :=
  {| getaddrinfo := fun _ _ => GaiRaise "";
     resolver_query := fun _ => DnsRaise (OtherException "") |}.

(** ** Sessions: a constructor call followed by requests *)

Inductive request : Type :=
  | ReqNext
  | ReqRefresh.

(** What the caller sees of one call. *)
Inductive observation : Type :=
  | ObsAddress (a : string)
  | ObsNone
  | ObsRaised (e : exn)
  | ObsBlocked
  | ObsOutOfFuel.

Definition observe {A} (shown : A -> observation) (o : outcome A)
    : observation :=
  match o with
  | Ret v _ => shown v
  | Exc e _ => ObsRaised e
  | Blocked => ObsBlocked
  | OutOfFuel => ObsOutOfFuel
  end.

(** The object after a call, when the call comes back to the caller. *)
Definition after {A} (o : outcome A) : option Circle :=
  match o with
  | Ret _ c => Some c
  | Exc _ c => Some c
  | Blocked => None
  | OutOfFuel => None
  end.

(** One request: the lookups and the observation, and the object after. *)
Definition perform (fuel : nat) (net : Net) (r : request) (c : Circle)
    : (list lookup_call * observation) * option Circle :=
  match r with
  | ReqNext =>
      let '(calls, o) := next_address fuel net c in
      ((calls, observe ObsAddress o), after o)
  | ReqRefresh =>
      let '(calls, o) := refresh fuel net c in
      ((calls, observe (fun _ => ObsNone) o), after o)
  end.

(** The requests of a caller, each under the network of its time; the
    caller goes no further than a call that does not come back. *)
Fixpoint run (fuel : nat) (c : Circle) (h : list (request * Net))
    : list (list lookup_call * observation) :=
  match h with
  | [] => []
  | (r, net) :: h' =>
      let '(seen, c') := perform fuel net r c in
      seen :: match c' with
              | Some c' => run fuel c' h'
              | None => []
              end
  end.

(** A whole session; the requests are made only if the constructor
    returned an object. *)
Definition session (fuel : nat) (net : Net) (name : string) (port : Z)
    (h : list (request * Net)) : list (list lookup_call * observation) :=
  let '(calls, o) := Circle_init fuel net name port in
  (calls, observe (fun _ => ObsNone) o) ::
  match o with
  | Ret _ c => run fuel c h
  | _ => []
  end.

Definition with_port {A} (p : Z) (o : outcome A) : outcome A :=
  match o with
  | Ret v c => Ret v (set_port c p)
  | Exc e c => Exc e (set_port c p)
  | Blocked => Blocked
  | OutOfFuel => OutOfFuel
  end.

Definition resumed_with_port (p : Z) (r : resumed) : resumed :=
  match r with
  | Yielded v g c => Yielded v g (set_port c p)
  | Thrown e c => Thrown e (set_port c p)
  | Spinning => Spinning
  end.

(** Every lookup of [_addr] is a [getaddrinfo] on port 443. *)
Definition on_port_443 (call : lookup_call) : Prop :=
  exists host, call = CallGetaddrinfo host 443.

(** ** The normalization as specified *)

(** Two hexadecimal digits read as one number. *)
Definition octet (hi lo : ascii) : option Z :=
  match hex_digit hi, hex_digit lo with
  | Some a, Some b => Some (16 * a + b)%Z
  | _, _ => None
  end.

(** The characters [hex_digit] accepts, with their values. *)
Definition hex_table : list (ascii * Z) :=
  [("0", 0); ("1", 1); ("2", 2); ("3", 3); ("4", 4); ("5", 5); ("6", 6);
   ("7", 7); ("8", 8); ("9", 9); ("a", 10); ("b", 11); ("c", 12); ("d", 13);
   ("e", 14); ("f", 15); ("A", 10); ("B", 11); ("C", 12); ("D", 13);
   ("E", 14); ("F", 15)]%char%Z.

Definition dotted (a b c d : Z) : string :=
  str_of_int a +:+ "." +:+ str_of_int b +:+ "." +:+
  str_of_int c +:+ "." +:+ str_of_int d.

(** The normalization in the words of the specification: a record whose
    second character is the type marker [#] is rendered as the dotted
    decimal form of the four octets written by its last eight hexadecimal
    characters; a record with another second character is rendered as it
    is. *)
Inductive normalized : string -> string -> Prop :=
  | normalized_generic pre h1 h2 h3 h4 h5 h6 h7 h8 a b c d :
      let record :=
        pre +:+ String h1 (String h2 (String h3 (String h4
                  (String h5 (String h6 (String h7 (String h8 ""))))))) in
      String.get 1 record = Some "#"%char ->
      octet h1 h2 = Some a -> octet h3 h4 = Some b ->
      octet h5 h6 = Some c -> octet h7 h8 = Some d ->
      normalized record (dotted a b c d)
  | normalized_plain record second :
      String.get 1 record = Some second -> second <> "#"%char ->
      normalized record record.

(** A network whose direct query answers the records [rrset]. *)
Definition direct_net (rrset : list string) : Net :=
  {| getaddrinfo := fun _ _ => GaiRaise "[Errno -2] Name or service not known";
     resolver_query := fun _ => DnsAnswer rrset |}.

(** ** Further notions for the resolver and the pool *)

(** The exceptions of [dns.resolver.query] for which [query] has a message
    of its own (lines 167-182). *)
Definition enumerated (e : dns_error) : bool :=
  match e with
  | OtherException _ => false
  | _ => true
  end.

Definition is_dec_digit (ch : ascii) : bool :=
  let n := nat_of_ascii ch in ((48 <=? n) && (n <=? 57))%nat.

(** The characters of a string satisfy [p]. *)
Fixpoint all_chars (p : ascii -> bool) (s : string) : bool :=
  match s with
  | EmptyString => true
  | String ch rest => p ch && all_chars p rest
  end.

(** * hcpsdk.namespace

    The class [info] of [src/hcpsdk/namespace/__init__.py]. Its collaborators
    outside the repository ([hcpsdk.connection], the HTTP response and
    [xml.etree.ElementTree]) are given by what they return or raise. *)

(** ** Python primitives used by the module *)

Definition dec_digit (ch : ascii) : option Z :=
  if is_dec_digit ch then Some (Z.of_nat (nat_of_ascii ch) - 48)%Z else None.

(** The digits of a decimal literal, as [hex_digits] for base 16. *)
Fixpoint dec_digits (seen us : bool) (acc : Z) (s : string) : option Z :=
  match s with
  | EmptyString => if seen && negb us then Some acc else None
  | String ch rest =>
      if Ascii.eqb ch "_" then
        if seen && negb us then dec_digits seen true acc rest else None
      else
        match dec_digit ch with
        | Some d => dec_digits true false (10 * acc + d)%Z rest
        | None => None
        end
  end.

Fixpoint count_digits (s : string) : nat :=
  match s with
  | EmptyString => 0
  | String ch rest =>
      if is_dec_digit ch then S (count_digits rest) else count_digits rest
  end.

(** The interpreter's limit on the digits of a decimal literal
    ([sys.get_int_max_str_digits()], [0] for no limit): a literal of more
    than 640 digits and more than [limit] digits is refused. *)
Definition within_digit_limit (limit : nat) (s : string) : bool :=
  ((limit =? 0) || (count_digits s <=? 640) || (count_digits s <=? limit))%nat.

(** [int(text)]: white space, an optional sign, then decimal digits with
    single underscores between them. *)
Definition py_int10 (limit : nat) (text : string) : py Z :=
  let t := strip text in
  let '(neg, t) :=
    match t with
    | String "-" rest => (true, rest)
    | String "+" rest => (false, rest)
    | _ => (false, t)
    end in
  match dec_digits false false 0 t with
  | Some v =>
      if within_digit_limit limit t
      then Return (if neg : bool then (- v)%Z else v)
      else Raise ValueError
  | None => Raise ValueError
  end.

(** ** _castVar *)

(** The values [_castVar] returns, and the description lists that
    [listAccessibleNS] adds. *)
Inductive value : Type :=
  | VBool (b : bool)
  | VInt (n : Z)
  | VStr (s : string)
  | VList (l : list string).

(** [info._castVar(self, var)], lines 204-212. *)
Definition _castVar (limit : nat) (var : string) : value :=
  if String.eqb var "true" then VBool true
  else if String.eqb var "false" then VBool false
  else
    match py_int10 limit var with
    | Return n => VInt n
    | Raise _ => VStr var
    end.

(** ** Collaborators of [info] *)

(** An element of the tree [xml.etree.ElementTree.fromstring] returns: its
    tag, its attributes in the order of the dictionary [attrib], its text
    ([None] when it has none) and its sub-elements. *)
#[warnings="-register-all"] Inductive element : Type :=
  | Element (tag : string) (attrib : list (string * string))
      (text : option string) (children : list element).

Definition tag (n : element) : string :=
  match n with Element t _ _ _ => t end.

Definition attrib (n : element) : list (string * string) :=
  match n with Element _ a _ _ => a end.

Definition text (n : element) : option string :=
  match n with Element _ _ t _ => t end.

Definition children (n : element) : list element :=
  match n with Element _ _ _ c => c end.

(** What [r.read()] followed by [ET.fromstring(x)] gives: [read] raises,
    the parser raises, or the root element. *)
Inductive body : Type :=
  | BodyUnreadable (msg : string)
  | BodyMalformed (msg : string)
  | BodyXml (root : element).

Record http_response : Type := HttpResponse {
  status : Z;
  reason : string;
  content : body
}.

Inductive request_result : Type :=
  | RequestRaise (msg : string)
  | RequestDone (r : http_response).

(** The exceptions that occur in the methods of [info]; [Foreign] stands
    for an exception raised by a collaborator, given by its [str()]. *)
Inductive ns_exn : Type :=
  | HcpsdkError (reason : string)
  | UnboundLocalError (name : string)
  | KeyError
  | AttributeError
  | Foreign (msg : string).

Inductive ns_result (D : Type) : Type :=
  | NsReturn (d : D)
  | NsRaise (e : ns_exn).
Arguments NsReturn {D} d.
Arguments NsRaise {D} e.

(** The attributes of an element after the casts. *)
Definition attrs : Type := list (string * value).

Section Info.

(** The types of [hcpsdk.target] objects and of the time measurements. *)
Context {Target Time : Type}.

(** An [hcpsdk.connection] object: its attributes [connect_time] and
    [service_time2], what [request(method, url)] does, and the message of
    the exception [close()] raises, if it raises. *)
Record connection : Type := Connection {
  con_connect_time : Time;
  con_service_time2 : Time;
  con_request : string -> string -> request_result;
  con_close : option string
}.

Inductive connect_result : Type :=
  | ConnectRaise (msg : string)
  | Connected (con : connection).

(** The environment of the module: the interpreter's limit on the digits of
    [int()], and the constructor [hcpsdk.connection(target, debuglevel)]. *)
Record Hcp : Type := {
  int_max_str_digits : nat;
  hcpsdk_connection : Target -> Z -> connect_result
}.

(** ** class info *)

Record info : Type := Info {
  target : Target;
  debuglevel : Z;
  connect_time : Time;
  service_time : Time
}.

Definition set_connect_time (self : info) (t : Time) : info :=
  {| target := target self; debuglevel := debuglevel self;
     connect_time := t; service_time := service_time self |}.

Definition set_service_time (self : info) (t : Time) : info :=
  {| target := target self; debuglevel := debuglevel self;
     connect_time := connect_time self; service_time := t |}.

(** The local variables of a method that its [finally] clause reads: [con]
    and [d], [None] while they are not bound, with the object itself. *)
Record frame (D : Type) : Type := Frame {
  f_self : info;
  f_con : option connection;
  f_d : option D
}.
Arguments Frame {D} f_self f_con f_d.
Arguments f_self {D} f.
Arguments f_con {D} f.
Arguments f_d {D} f.

(** The clause [finally: con.close(); return d] that ends every method. It
    runs whether the [try] statement completed or raised, and its [return]
    discards an exception that is pending. *)
Definition finally_close_return {D} (fr : frame D) : info * ns_result D :=
  (f_self fr,
   match f_con fr with
   | None => NsRaise (UnboundLocalError "con")
   | Some con =>
       match con_close con with
       | Some msg => NsRaise (Foreign msg)
       | None =>
           match f_d fr with
           | None => NsRaise (UnboundLocalError "d")
           | Some d => NsReturn d
           end
       end
   end).

(** The message ['{} - {}'.format(r.status, r.reason)]. *)
Definition status_message (r : http_response) : string :=
  str_of_int (status r) +:+ " - " +:+ reason r.

(** *** NSstatistics *)

(** [del d[k]] on the entries of a dictionary. *)
Definition dict_del {V} (d : list (string * V)) (k : string)
    : list (string * V) :=
  filter (fun e => negb (String.eqb (fst e) k)) d.

(** Lines 75-80: the loop over the keys of [root.attrib], which casts the
    value of a key in place unless the key starts with [{http], and
    remembers the last key that does. *)
Fixpoint statistics_loop (limit : nat) (d : list (string * string))
    (tobedel : option string) : attrs * option string :=
  match d with
  | [] => ([], tobedel)
  | (i, v) :: rest =>
      if String.prefix "{http" i then
        let '(d', t) := statistics_loop limit rest (Some i) in
        ((i, VStr v) :: d', t)
      else
        let '(d', t) := statistics_loop limit rest tobedel in
        ((i, _castVar limit v) :: d', t)
  end.

(** Lines 74-82. *)
Definition statistics_dict (limit : nat) (root : element) : attrs :=
  let '(d, tobedel) := statistics_loop limit (attrib root) None in
  match tobedel with
  | Some k => if truthy k then dict_del d k else d
  | None => d
  end.

(** Lines 57-84: the [try] statement of [NSstatistics], up to the point
    where it completes or raises (the pending exception is the second
    component). [d] is bound to [None] from the start. *)
Definition NSstatistics_try (hcp : Hcp) (self : info)
    : frame (option attrs) * option ns_exn :=
  let fr := Frame self None (Some None) in
  match hcpsdk_connection hcp (target self) (debuglevel self) with
  | ConnectRaise msg => (fr, Some (HcpsdkError msg))
  | Connected con =>
      let self := set_connect_time self (con_connect_time con) in
      let fr := Frame self (Some con) (Some None) in
      match con_request con "GET" "/proc/statistics" with
      | RequestRaise msg => (fr, Some (HcpsdkError msg))
      | RequestDone r =>
          if (status r =? 200)%Z then
            match content r with
            | BodyUnreadable msg => (fr, Some (Foreign msg))
            | BodyMalformed msg =>
                (Frame (set_service_time self (con_service_time2 con))
                   (Some con) (Some None),
                 Some (Foreign msg))
            | BodyXml root =>
                (Frame (set_service_time self (con_service_time2 con))
                   (Some con)
                   (Some (Some (statistics_dict (int_max_str_digits hcp)
                                  root))),
                 None)
            end
          else (fr, Some (HcpsdkError (status_message r)))
      end
  end.

(** [info.NSstatistics(self)]: the object after the call and the outcome. *)
Definition NSstatistics (hcp : Hcp) (self : info)
    : info * ns_result (option attrs) :=
  finally_close_return (fst (NSstatistics_try hcp self)).

(** *** listPermissions *)

(** [d[k] = v] on a dictionary kept in the order of its keys: the value of
    a key that is present is replaced where it stands, a new key goes to the
    end. *)
Fixpoint od_set {K V} `{EqDecision K} (d : list (K * V)) (k : K) (v : V)
    : list (K * V) :=
  match d with
  | [] => [(k, v)]
  | (k', v') :: rest =>
      if decide (k' = k) then (k, v) :: rest else (k', v') :: od_set rest k v
  end.

(** [d.get(k)]. *)
Fixpoint od_get {K V} `{EqDecision K} (d : list (K * V)) (k : K) : option V :=
  match d with
  | [] => None
  | (k', v') :: rest => if decide (k' = k) then Some v' else od_get rest k
  end.

(** Lines 189-190: every value of the attributes is cast in place. *)
Definition cast_all (limit : nat) (a : list (string * string)) : attrs :=
  map (fun e => (fst e, _castVar limit (snd e))) a.

(** Lines 186-190: one entry per tag of the sub-elements of the root. *)
Definition permissions_dict (limit : nat) (root : element)
    : list (string * attrs) :=
  fold_left (fun d n => od_set d (tag n) (cast_all limit (attrib n)))
    (children root) [].

(** Lines 173-192: the [try] statement of [listPermissions]; [d] is not
    bound before line 186, and an exception of [request] is not caught. *)
Definition listPermissions_try (hcp : Hcp) (self : info)
    : frame (list (string * attrs)) * option ns_exn :=
  match hcpsdk_connection hcp (target self) (debuglevel self) with
  | ConnectRaise msg => (Frame self None None, Some (HcpsdkError msg))
  | Connected con =>
      let self := set_connect_time self (con_connect_time con) in
      let fr := Frame self (Some con) None in
      match con_request con "GET" "/proc/permissions" with
      | RequestRaise msg => (fr, Some (Foreign msg))
      | RequestDone r =>
          if (status r =? 200)%Z then
            match content r with
            | BodyUnreadable msg => (fr, Some (Foreign msg))
            | BodyMalformed msg =>
                (Frame (set_service_time self (con_service_time2 con))
                   (Some con) None,
                 Some (Foreign msg))
            | BodyXml root =>
                (Frame (set_service_time self (con_service_time2 con))
                   (Some con)
                   (Some (permissions_dict (int_max_str_digits hcp) root)),
                 None)
            end
          else (fr, Some (HcpsdkError (status_message r)))
      end
  end.

(** [info.listPermissions(self)]. *)
Definition listPermissions (hcp : Hcp) (self : info)
    : info * ns_result (list (string * attrs)) :=
  finally_close_return (fst (listPermissions_try hcp self)).

(** *** listRetentionClasses and listAccessibleNS *)

(** White space removed by [str.strip()]. *)
Definition is_py_space (ch : ascii) : bool :=
  let n := nat_of_ascii ch in
  ((9 <=? n) && (n <=? 13) || (28 <=? n) && (n <=? 32) ||
   (n =? 133) || (n =? 160))%nat.

Fixpoint py_lstrip (s : string) : string :=
  match s with
  | String ch rest => if is_py_space ch then py_lstrip rest else s
  | EmptyString => EmptyString
  end.

(** [s.strip()]. *)
Definition py_strip (s : string) : string :=
  String.rev (py_lstrip (String.rev (py_lstrip s))).

(** [s.split(sep)] for a separator of one character. *)
Fixpoint py_split (sep : ascii) (s : string) : list string :=
  match s with
  | EmptyString => [EmptyString]
  | String ch rest =>
      if Ascii.eqb ch sep then EmptyString :: py_split sep rest
      else
        match py_split sep rest with
        | piece :: pieces => String ch piece :: pieces
        | [] => [String ch EmptyString]
        end
  end.

(** The separator of line 126, the degree sign. *)
Definition degree_sign : ascii := ascii_of_nat 176.

(** The attributes of an element as the parser leaves them. *)
Definition raw (a : list (string * string)) : attrs :=
  map (fun e => (fst e, VStr (snd e))) a.

(** [_castVar] on a value that is already cast: a boolean or an integer
    goes through [int()], a list makes [int()] raise [TypeError]. *)
Definition cast_value (limit : nat) (v : value) : ns_result value :=
  match v with
  | VStr s => NsReturn (_castVar limit s)
  | VBool b => NsReturn (VInt (if b then 1 else 0))
  | VInt n => NsReturn (VInt n)
  | VList _ => NsRaise (Foreign "TypeError")
  end.

(** The lookup [d[n.attrib.get('name')]] while the element [n] is being
    processed. [d] holds the object [n.attrib] itself under the name the
    element had when it was entered (line 154), so the lookup finds that
    object as long as the attribute [name] is absent or still a string, and
    raises [KeyError] once [name] has been cast to a boolean or an integer:
    the keys of [d] are strings or [None]. [a] is the present state of
    [n.attrib]. *)
Definition name_key (a : attrs) : ns_result (option string) :=
  match od_get a "name" with
  | None => NsReturn None
  | Some (VStr s) => NsReturn (Some s)
  | Some _ => NsRaise KeyError
  end.

(** Lines 155-157 (and 122-124): the loop over the keys of [n.attrib],
    which casts each value in place through [d]. *)
Fixpoint cast_in_place (limit : nat) (keys : list string) (a : attrs)
    : attrs * option ns_exn :=
  match keys with
  | [] => (a, None)
  | i :: rest =>
      match name_key a with
      | NsRaise e => (a, Some e)
      | NsReturn _ =>
          match od_get a i with
          | None => (a, Some KeyError)
          | Some v =>
              match cast_value limit v with
              | NsRaise e => (a, Some e)
              | NsReturn v' => cast_in_place limit rest (od_set a i v')
              end
          end
      end
  end.

(** Lines 158-159: [d[n.attrib.get('name')]['description'] =
    n1.text.strip()] for every sub-element [n1]; the right-hand side is
    evaluated first. *)
Fixpoint retention_description (subs : list element) (a : attrs)
    : attrs * option ns_exn :=
  match subs with
  | [] => (a, None)
  | n1 :: rest =>
      match text n1 with
      | None => (a, Some AttributeError)
      | Some t =>
          match name_key a with
          | NsRaise e => (a, Some e)
          | NsReturn _ =>
              retention_description rest
                (od_set a "description" (VStr (py_strip t)))
          end
      end
  end.

(** Lines 125-126: [d[n.attrib['name']]['description'] =
    n1.text.strip().split('°')]; here [n.attrib['name']] raises [KeyError]
    when the element has no attribute [name]. *)
Fixpoint accessible_description (subs : list element) (a : attrs)
    : attrs * option ns_exn :=
  match subs with
  | [] => (a, None)
  | n1 :: rest =>
      match text n1 with
      | None => (a, Some AttributeError)
      | Some t =>
          match od_get a "name" with
          | None => (a, Some KeyError)
          | Some _ =>
              match name_key a with
              | NsRaise e => (a, Some e)
              | NsReturn _ =>
                  accessible_description rest
                    (od_set a "description"
                       (VList (py_split degree_sign (py_strip t))))
              end
          end
      end
  end.

(** Lines 153-159 (and 120-126): the loop over the sub-elements of the
    root. The dictionary holds the attributes of an element from the moment
    the element is entered; what an exception leaves of them stays in it. *)
Fixpoint named_loop (limit : nat)
    (describe : list element -> attrs -> attrs * option ns_exn)
    (ns : list element) (d : list (option string * attrs))
    : list (option string * attrs) * option ns_exn :=
  match ns with
  | [] => (d, None)
  | n :: rest =>
      let k0 := od_get (attrib n) "name" in
      let '(a1, e1) :=
        cast_in_place limit (map fst (attrib n)) (raw (attrib n)) in
      match e1 with
      | Some e => (od_set d k0 a1, Some e)
      | None =>
          let '(a2, e2) := describe (children n) a1 in
          match e2 with
          | Some e => (od_set d k0 a2, Some e)
          | None => named_loop limit describe rest (od_set d k0 a2)
          end
      end
  end.

(** Lines 139-161: the [try] statement of [listRetentionClasses]. *)
Definition listRetentionClasses_try (hcp : Hcp) (self : info)
    : frame (list (option string * attrs)) * option ns_exn :=
  match hcpsdk_connection hcp (target self) (debuglevel self) with
  | ConnectRaise msg => (Frame self None None, Some (HcpsdkError msg))
  | Connected con =>
      let self := set_connect_time self (con_connect_time con) in
      let fr := Frame self (Some con) None in
      match con_request con "GET" "/proc/retentionClasses" with
      | RequestRaise msg => (fr, Some (Foreign msg))
      | RequestDone r =>
          if (status r =? 200)%Z then
            match content r with
            | BodyUnreadable msg => (fr, Some (Foreign msg))
            | BodyMalformed msg =>
                (Frame (set_service_time self (con_service_time2 con))
                   (Some con) None,
                 Some (Foreign msg))
            | BodyXml root =>
                let '(d, e) :=
                  named_loop (int_max_str_digits hcp) retention_description
                    (children root) [] in
                (Frame (set_service_time self (con_service_time2 con))
                   (Some con) (Some d),
                 e)
            end
          else (fr, Some (HcpsdkError (status_message r)))
      end
  end.

(** [info.listRetentionClasses(self)]. *)
Definition listRetentionClasses (hcp : Hcp) (self : info)
    : info * ns_result (list (option string * attrs)) :=
  finally_close_return (fst (listRetentionClasses_try hcp self)).

(** Lines 98-128: the [try] statement of [listAccessibleNS]. *)
Definition listAccessibleNS_try (hcp : Hcp) (self : info) (all : bool)
    : frame (list (option string * attrs)) * option ns_exn :=
  let path := if negb all then "/proc" else "/proc/?single=true" in
  match hcpsdk_connection hcp (target self) (debuglevel self) with
  | ConnectRaise msg => (Frame self None None, Some (HcpsdkError msg))
  | Connected con =>
      let self := set_connect_time self (con_connect_time con) in
      let fr := Frame self (Some con) None in
      match con_request con "GET" path with
      | RequestRaise msg => (fr, Some (HcpsdkError msg))
      | RequestDone r =>
          if (status r =? 200)%Z then
            match content r with
            | BodyUnreadable msg => (fr, Some (Foreign msg))
            | BodyMalformed msg =>
                (Frame (set_service_time self (con_service_time2 con))
                   (Some con) None,
                 Some (Foreign msg))
            | BodyXml root =>
                let '(d, e) :=
                  named_loop (int_max_str_digits hcp) accessible_description
                    (children root) [] in
                (Frame (set_service_time self (con_service_time2 con))
                   (Some con) (Some d),
                 e)
            end
          else (fr, Some (HcpsdkError (status_message r)))
      end
  end.

(** [info.listAccessibleNS(self, all=False)]. *)
Definition listAccessibleNS (hcp : Hcp) (self : info) (all : bool)
    : info * ns_result (list (option string * attrs)) :=
  finally_close_return (fst (listAccessibleNS_try hcp self all)).

End Info.

Arguments connection : clear implicits.
Arguments connect_result : clear implicits.
Arguments Hcp : clear implicits.
Arguments info : clear implicits.
Arguments frame : clear implicits.
Arguments Frame {Target Time D} f_self f_con f_d.
Arguments f_self {Target Time D} f.
Arguments f_con {Target Time D} f.
Arguments f_d {Target Time D} f.

(** The exchange goes well: the connection is made, the request for [path]
    is answered with status 200 and a body that parses to [root], and
    [close()] returns. *)
Definition answers {Target Time} (hcp : Hcp Target Time)
    (self : info Target Time) (path : string) (con : connection Time)
    (root : element) : Prop :=
  hcpsdk_connection hcp (target self) (debuglevel self) = Connected con /\
  con_close con = None /\
  exists why,
    con_request con "GET" path = RequestDone (HttpResponse 200 why (BodyXml root)).

(** The exchange fails after the connection was made: the request for
    [path] raises, or is answered with another status than 200, or with a
    body that cannot be read or parsed; [close()] returns. *)
Definition fails_after_connecting {Target Time} (hcp : Hcp Target Time)
    (self : info Target Time) (path : string) (con : connection Time) : Prop :=
  hcpsdk_connection hcp (target self) (debuglevel self) = Connected con /\
  con_close con = None /\
  match con_request con "GET" path with
  | RequestRaise _ => True
  | RequestDone r =>
      status r <> 200%Z \/
      match content r with BodyXml _ => False | _ => True end
  end.

(** The object after an exchange that went well. *)
Definition timed {Target Time} (self : info Target Time)
    (con : connection Time) : info Target Time :=
  set_service_time (set_connect_time self (con_connect_time con))
    (con_service_time2 con).

(** ** Sample collaborators *)

(** The root of a [/proc/statistics] answer. *)
Definition sample_statistics : element :=
  Element "statistics"
    [("{http://www.w3.org/2001/XMLSchema-instance}noNamespaceSchemaLocation",
      "/static/xsd/ns-proc-statistics.xsd");
     ("totalCapacityBytes", "53687091200");
     ("objectCount", "12");
     ("softQuotaPercent", "85")]
    None [].

(** The root of a [/proc/permissions] answer. *)
Definition sample_permissions : element :=
  Element "permissions" []
    None
    [Element "namespacePermissions" [("read", "true"); ("write", "false")]
       None [];
     Element "userPermissions" [("read", "true"); ("write", "true")]
       None []].

(** A connection whose every request is answered by [r]. *)
Definition answering (r : http_response) : connection Z :=
  {| con_connect_time := 12%Z; con_service_time2 := 34%Z;
     con_request := fun _ _ => RequestDone r; con_close := None |}.

Definition hcp_answering (r : http_response) : Hcp string Z :=
  {| int_max_str_digits := 4300;
     hcpsdk_connection := fun _ _ => Connected (answering r) |}.

Definition hcp_unreachable : Hcp string Z :=
  {| int_max_str_digits := 4300;
     hcpsdk_connection := fun _ _ => ConnectRaise "connection refused" |}.

Definition sample_info : info string Z :=
  {| target := "ns1.tenant.hcp.example.com"; debuglevel := 0;
     connect_time := 0%Z; service_time := 0%Z |}.

(** ** Notions for the properties of the dictionaries *)

(** The keys that [NSstatistics] does not cast (line 77). *)
Definition namespaced (k : string) : bool := String.prefix "{http" k.

(** What the loop of [NSstatistics] makes of one entry. *)
Definition statistics_entry (limit : nat) (e : string * string)
    : string * value :=
  if namespaced (fst e) then (fst e, VStr (snd e))
  else (fst e, _castVar limit (snd e)).

(** The entries whose key does not start with [{http]. *)
Definition plain (e : string * string) : bool := negb (namespaced (fst e)).

(** ** Notions for the properties of the named listings *)

(** [n.attrib.get('name')] on the element as parsed. *)
Definition element_name (n : element) : option string :=
  od_get (attrib n) "name".

(** The name of the element, if it has one, is left a string by
    [_castVar]: it is not [true], [false] or the text of an integer. *)
Definition keeps_name (limit : nat) (n : element) : Prop :=
  forall s, element_name n = Some s -> _castVar limit s = VStr s.


Definition has_text (n1 : element) : Prop := text n1 <> None.

(** The entry [listRetentionClasses] makes for an element: its attributes
    cast, with the stripped text of its last sub-element as description. *)
Definition retention_entry (limit : nat) (n : element) : attrs :=
  match last (children n) with
  | Some n1 =>
      od_set (cast_all limit (attrib n)) "description"
        (VStr (py_strip (default "" (text n1))))
  | None => cast_all limit (attrib n)
  end.


(** The first and the last class of [sample_classes]. *)
Definition sample_classes_named : element :=
  Element "retentionClasses" [] None
    [Element "retentionClass"
       [("name", "seven-years"); ("value", "A+7y"); ("autoDelete", "false")]
       None [Element "description" [] (Some "  Seven years.  ") []];
     Element "retentionClass"
       [("name", "forever"); ("value", "-1"); ("autoDelete", "false")]
       None []].


(** * tests/mapilogstest.py: the selection of nodes in [LogsShell] *)

(** The attributes [preloop] creates. *)
Record LogsShell : Type := {
  nodes : list string;
  snodes : list string;
  logs : list string
}.

Definition set_nodes (self : LogsShell) (l : list string) : LogsShell :=
  {| nodes := l; snodes := snodes self; logs := logs self |}.

(** [l[i]] on a list. *)
Definition py_item {A} (l : list A) (i : nat) : py A :=
  match l !! i with
  | Some x => Return x
  | None => Raise IndexError
  end.

(** [[x.split('.')[3] for x in l.target.addresses]], line 53: the
    comprehension raises at the first address with fewer than four parts. *)
Fixpoint node_ids (addresses : list string) : py (list string) :=
  match addresses with
  | [] => Return []
  | x :: rest =>
      p ← py_item (py_split "." x) 3;
      ps ← node_ids rest;
      Return (p :: ps)
  end.

(** Lines 54-58: the loop over the pieces of the argument, with the list
    of nodes selected so far and the lines printed so far. *)
Fixpoint select_nodes (n pieces selected printed : list string)
    : list string * list string :=
  match pieces with
  | [] => (selected, printed)
  | x :: rest =>
      if bool_decide (x ∈ n)
      then select_nodes n rest (selected ++ [x]) printed
      else select_nodes n rest selected (printed ++ ["invalid: " +:+ x])
  end.

(** [LogsShell.do_nodes(self, arg)], with the addresses of the target: the
    object after the call, the lines printed and the outcome. *)
Definition do_nodes (addresses : list string) (arg : string)
    (self : LogsShell) : LogsShell * list string * py unit :=
  if truthy arg then
    let self := set_nodes self [] in
    match node_ids addresses with
    | Raise e => (self, [], Raise e)
    | Return n =>
        let '(selected, printed) :=
          select_nodes n (py_split "," arg) [] [] in
        (set_nodes self selected, printed, Return tt)
    end
  else (set_nodes self [], [], Return tt).

(** * Properties *)

(** ** Examples of normalization *)

Example normalize_generic : normalize "\# 4 C0A80101" = Return "192.168.1.1".
Proof. reflexivity. Qed.

Example normalize_typed : normalize "192.168.1.1" = Return "192.168.1.1".
Proof. reflexivity. Qed.

Example normalize_short_generic : normalize "\# 1 c0" = Raise ValueError.
Proof. reflexivity. Qed.

Example normalize_three_bytes : normalize "\# 3 c0a801" = Return "3.192.168.1".
Proof. reflexivity. Qed.

(** ** The loop of the generator *)

Lemma run_loop_empty fuel pc : run_loop fuel pc [] = None.
Proof.
  revert pc. induction fuel as [|fuel IH]; intros pc; [reflexivity|].
  destruct pc as [|i]; cbn [run_loop]; [apply IH|].
  rewrite lookup_nil. apply IH.
Qed.

Lemma run_loop_inv fuel pc addrs v i :
  run_loop fuel pc addrs = Some (v, i) ->
  1 <= i <= length addrs /\ addrs !! (i - 1) = Some v.
Proof.
  revert pc. induction fuel as [|fuel IH]; intros pc H; [discriminate|].
  destruct pc as [|j]; cbn [run_loop] in H; [eauto|].
  destruct (addrs !! j) as [w|] eqn:E; [|eauto].
  injection H as -> <-. apply lookup_lt_Some in E as Hlt.
  replace (S j - 1) with j by lia. split; [lia|exact E].
Qed.

Lemma run_loop_for fuel i addrs :
  3 <= fuel -> addrs <> [] -> i <= length addrs ->
  exists v, addrs !! (i mod length addrs) = Some v /\
            run_loop fuel (AtFor i) addrs = Some (v, S (i mod length addrs)).
Proof.
  intros Hf Hne Hi.
  destruct fuel as [|[|[|fuel]]]; try lia.
  destruct addrs as [|a0 addrs]; [done|]. clear Hne.
  destruct (decide (i = length (a0 :: addrs))) as [->|Hlt].
  - rewrite Nat.Div0.mod_same. exists a0. split; [done|].
    cbn [run_loop]. rewrite lookup_ge_None_2 by lia. done.
  - rewrite Nat.mod_small by lia.
    destruct (lookup_lt_is_Some_2 (a0 :: addrs) i) as [v Hv]; [lia|].
    exists v. split; [done|]. cbn [run_loop]. by rewrite Hv.
Qed.

Lemma run_loop_while_inv fuel addrs v i :
  run_loop fuel AtWhile addrs = Some (v, i) -> i = 1 /\ addrs !! 0 = Some v.
Proof.
  destruct addrs as [|a0 addrs]; [by rewrite run_loop_empty|].
  destruct fuel as [|[|fuel]]; cbn; try done. by intros [= -> <-].
Qed.

Lemma run_loop_while fuel a0 addrs :
  2 <= fuel -> run_loop fuel AtWhile (a0 :: addrs) = Some (a0, 1).
Proof. intros Hf. destruct fuel as [|[|fuel]]; try lia. done. Qed.

(** ** The system-resolver path of [query] *)

Lemma append_sockaddrs_spec r l :
  append_sockaddrs r l =
  {| fqdn := fqdn r; cache := cache r; ips := ips r ++ sockaddr_hosts l;
     raised := raised r |}.
Proof.
  revert r. induction l as [|a l IH]; intros r; cbn [append_sockaddrs].
  - destruct r; cbn. by rewrite app_nil_r.
  - rewrite IH. cbn. by rewrite <- app_assoc.
Qed.

Lemma query_system net name :
  query net name true =
  ([CallGetaddrinfo name 443],
   Return match getaddrinfo net name 443 with
          | GaiRaise msg => Response name true [] msg
          | GaiList l => Response name true (sockaddr_hosts l) ""
          end).
Proof.
  unfold query. destruct (getaddrinfo net name 443) as [l|msg]; [|done].
  by rewrite append_sockaddrs_spec.
Qed.

(** ** One call of [_addr] *)

Lemma _addr_locked fuel net name c :
  _cLock c = true -> _addr fuel net name c = ([], Blocked).
Proof. intros H. unfold _addr. by rewrite H. Qed.

Lemma _addr_resolve fuel net name c :
  _cLock c = false -> truthy name = true ->
  _addr fuel net (Some name) c =
  ([CallGetaddrinfo name 443],
   match getaddrinfo net name 443 with
   | GaiRaise msg =>
       if truthy msg then Exc (IpsError msg) (wrecked c) else OutOfFuel
   | GaiList l =>
       match run_loop fuel AtWhile (sockaddr_hosts l) with
       | Some (v, i) =>
           Ret v (set_generator (installed c (sockaddr_hosts l))
                    (Some (GenSuspended i)))
       | None => OutOfFuel
       end
   end).
Proof.
  intros Hlock Hname. unfold _addr, given. rewrite Hlock, Hname.
  cbn [__generator set_generator gen_next]. rewrite query_system.
  destruct (getaddrinfo net name 443) as [l|msg]; cbn [raised ips].
  - cbn [truthy]. unfold resume_loop. cbn [_addresses set_addresses].
    destruct (run_loop fuel AtWhile (sockaddr_hosts l)) as [[v i]|]; done.
  - destruct (truthy msg); [done|].
    unfold resume_loop. cbn [_addresses set_addresses].
    by rewrite run_loop_empty.
Qed.

Lemma _addr_resolve_ok fuel net name c a l :
  _cLock c = false -> truthy name = true -> 2 <= fuel ->
  getaddrinfo net name 443 = GaiList (a :: l) ->
  _addr fuel net (Some name) c =
  ([CallGetaddrinfo name 443],
   Ret (fst (ai_sockaddr a)) (installed c (sockaddr_hosts (a :: l)))).
Proof.
  intros Hlock Hname Hfuel Hnet.
  rewrite _addr_resolve, Hnet by done.
  cbn [sockaddr_hosts map]. by rewrite run_loop_while.
Qed.

Lemma _addr_resolve_fail fuel net name c msg :
  _cLock c = false -> truthy name = true ->
  getaddrinfo net name 443 = GaiRaise msg -> truthy msg = true ->
  _addr fuel net (Some name) c =
  ([CallGetaddrinfo name 443], Exc (IpsError msg) (wrecked c)).
Proof.
  intros Hlock Hname Hnet Hmsg. by rewrite _addr_resolve, Hnet, Hmsg.
Qed.

Lemma _addr_resolve_empty fuel net name c :
  _cLock c = false -> truthy name = true ->
  getaddrinfo net name 443 = GaiList [] ->
  _addr fuel net (Some name) c = ([CallGetaddrinfo name 443], OutOfFuel).
Proof.
  intros Hlock Hname Hnet. rewrite _addr_resolve, Hnet by done.
  cbn [sockaddr_hosts map]. by rewrite run_loop_empty.
Qed.

Lemma next_address_suspended fuel net c i :
  _cLock c = false -> __generator c = Some (GenSuspended i) ->
  next_address fuel net c =
  ([], match run_loop fuel (AtFor i) (_addresses c) with
       | Some (v, j) => Ret v (set_generator c (Some (GenSuspended j)))
       | None => OutOfFuel
       end).
Proof.
  intros Hlock Hgen. unfold next_address, _addr, given. rewrite Hlock.
  cbn [__generator set_cLock]. rewrite Hgen. cbn [gen_next].
  unfold resume_loop. cbn [_addresses set_cLock].
  destruct (run_loop fuel (AtFor i) (_addresses c)) as [[v j]|]; [|done].
  destruct c; cbn in *. by subst.
Qed.

Lemma next_address_populated fuel net c i :
  Populated c i -> 3 <= fuel ->
  exists a,
    _addresses c !! (i mod length (_addresses c)) = Some a /\
    next_address fuel net c =
    ([], Ret a (set_generator c
                  (Some (GenSuspended (S (i mod length (_addresses c))))))).
Proof.
  intros [Hlock Hgen Hrange Hauth] Hfuel.
  destruct (run_loop_for fuel i (_addresses c)) as (a & Ha & Hrun);
    [done| |lia|].
  { intros E. rewrite E in Hrange. cbn in Hrange. lia. }
  exists a. split; [done|].
  by rewrite (next_address_suspended _ _ _ i), Hrun.
Qed.

Lemma Populated_advance c i j :
  Populated c i -> 1 <= j <= length (_addresses c) ->
  Populated (set_generator c (Some (GenSuspended j))) j.
Proof. intros [Hlock Hgen Hrange Hauth] Hj. by split. Qed.

Lemma Populated_installed c l :
  truthy (__authority c) = true -> l <> [] -> Populated (installed c l) 1.
Proof.
  intros Hauth Hne. split; cbn; try done.
  destruct l; [done|]. cbn. lia.
Qed.

Lemma Broken_wrecked c : Broken (wrecked c).
Proof. by split. Qed.

(** ** What the reachable states are *)

Lemma Circle_init_unfold fuel net name port :
  Circle_init fuel net name port =
  let self := MkCircle name port false None [] in
  (fst (_addr fuel net (Some name) self),
   discard (snd (_addr fuel net (Some name) self))).
Proof.
  unfold Circle_init. cbn [__authority].
  by destruct (_addr fuel net (Some name) _).
Qed.

Lemma refresh_unfold fuel net c :
  refresh fuel net c =
  (fst (_addr fuel net (Some (__authority c)) c),
   discard (snd (_addr fuel net (Some (__authority c)) c))).
Proof. unfold refresh. by destruct (_addr fuel net _ c). Qed.

Lemma discard_Ret {A} (o : outcome A) c :
  discard o = Ret tt c -> exists v, o = Ret v c.
Proof. destruct o; cbn; intros H; try discriminate. injection H as ->. eauto. Qed.

Lemma discard_Exc {A} (o : outcome A) e c :
  discard o = Exc e c -> o = Exc e c.
Proof. destruct o; cbn; intros H; try discriminate. by injection H as -> ->. Qed.

(** A resolution that returns leaves a populated pool, one that raises a
    broken one. *)
Lemma _addr_resolve_Ret fuel net name c calls v c' :
  _cLock c = false -> truthy name = true ->
  _addr fuel net (Some name) c = (calls, Ret v c') ->
  exists l, getaddrinfo net name 443 = GaiList l /\
            sockaddr_hosts l !! 0 = Some v /\
            c' = installed c (sockaddr_hosts l).
Proof.
  intros Hlock Hname. rewrite _addr_resolve by done.
  destruct (getaddrinfo net name 443) as [l|msg].
  - destruct (run_loop fuel AtWhile (sockaddr_hosts l)) as [[w i]|] eqn:E;
      intros H; [|discriminate].
    injection H as _ <- <-. apply run_loop_while_inv in E as [-> Hv]. eauto.
  - destruct (truthy msg); discriminate.
Qed.

Lemma _addr_resolve_Exc fuel net name c calls e c' :
  _cLock c = false -> truthy name = true ->
  _addr fuel net (Some name) c = (calls, Exc e c') -> c' = wrecked c.
Proof.
  intros Hlock Hname. rewrite _addr_resolve by done.
  destruct (getaddrinfo net name 443) as [l|msg].
  - destruct (run_loop fuel AtWhile (sockaddr_hosts l)) as [[w i]|];
      discriminate.
  - destruct (truthy msg); [|discriminate]. by intros [= _ _ <-].
Qed.

Lemma _addr_falsy fuel net c :
  _cLock c = false -> __generator c = None ->
  _addr fuel net (Some "") c = ([], Exc TypeError (set_cLock c true)).
Proof. intros Hlock Hgen. unfold _addr. rewrite Hlock. cbn. by rewrite Hgen. Qed.

Lemma Circle_init_Ret fuel net name port calls c :
  Circle_init fuel net name port = (calls, Ret tt c) -> Populated c 1.
Proof.
  rewrite Circle_init_unfold. cbn zeta. intros [= _ Hret].
  apply discard_Ret in Hret as [v Hret].
  destruct (_addr fuel net (Some name) _) as [calls' o] eqn:E.
  cbn in Hret. subst o.
  destruct name as [|ch name]; [by rewrite _addr_falsy in E|].
  apply _addr_resolve_Ret in E as (l & Hnet & Hv & ->); [|done..].
  apply Populated_installed; [done|]. by intros E; rewrite E in Hv.
Qed.

Lemma unfailed_Populated c : unfailed c -> exists i, Populated c i.
Proof.
  induction 1 as [fuel net name port calls c Hinit
                 |fuel net calls a c c' _ [i Hpop] Hnext
                 |fuel net calls c c' _ [i Hpop] Href].
  - exists 1. by eapply Circle_init_Ret.
  - destruct Hpop as [Hlock Hgen Hrange Hauth].
    rewrite (next_address_suspended _ _ _ i) in Hnext by done.
    destruct (run_loop fuel (AtFor i) (_addresses c)) as [[v j]|] eqn:E;
      [|discriminate].
    injection Hnext as _ _ <-. exists j.
    apply run_loop_inv in E as [Hj _].
    by apply (Populated_advance c i j).
  - destruct Hpop as [Hlock Hgen Hrange Hauth].
    rewrite refresh_unfold in Href. injection Href as _ Href.
    apply discard_Ret in Href as [v Href].
    destruct (_addr fuel net _ c) as [calls' o] eqn:E. cbn in Href. subst o.
    apply _addr_resolve_Ret in E as (l & Hnet & Hv & ->); [|done..].
    exists 1. apply Populated_installed; [done|].
    by intros E; rewrite E in Hv.
Qed.

Lemma reachable_inv c : reachable c -> (exists i, Populated c i) \/ Broken c.
Proof.
  induction 1 as [fuel net name port calls c Hinit
                 |fuel net calls a c c' _ IH Hnext
                 |fuel net calls e c c' _ IH Hnext
                 |fuel net calls c c' _ IH Href
                 |fuel net calls e c c' _ IH Href].
  - left. exists 1. by eapply Circle_init_Ret.
  - destruct IH as [[i [Hlock Hgen Hrange Hauth]]|[Hlock _ _]].
    + rewrite (next_address_suspended _ _ _ i) in Hnext by done.
      destruct (run_loop fuel (AtFor i) (_addresses c)) as [[v j]|] eqn:E;
        [|discriminate].
      injection Hnext as _ _ <-. left. exists j.
      apply run_loop_inv in E as [Hj _].
      by apply (Populated_advance c i j).
    + unfold next_address in Hnext. by rewrite _addr_locked in Hnext.
  - destruct IH as [[i [Hlock Hgen Hrange Hauth]]|[Hlock _ _]].
    + rewrite (next_address_suspended _ _ _ i) in Hnext by done.
      by destruct (run_loop fuel (AtFor i) (_addresses c)) as [[v j]|].
    + unfold next_address in Hnext. by rewrite _addr_locked in Hnext.
  - rewrite refresh_unfold in Href. injection Href as _ Href.
    apply discard_Ret in Href as [v Href].
    destruct (_addr fuel net _ c) as [calls' o] eqn:E. cbn in Href. subst o.
    destruct IH as [[i [Hlock Hgen Hrange Hauth]]|[Hlock _ _]].
    + apply _addr_resolve_Ret in E as (l & Hnet & Hv & ->); [|done..].
      left. exists 1. apply Populated_installed; [done|].
      by intros E; rewrite E in Hv.
    + by rewrite _addr_locked in E.
  - rewrite refresh_unfold in Href. injection Href as _ Href.
    apply discard_Exc in Href.
    destruct (_addr fuel net _ c) as [calls' o] eqn:E. cbn in Href. subst o.
    destruct IH as [[i [Hlock Hgen Hrange Hauth]]|[Hlock _ _]].
    + apply _addr_resolve_Exc in E as ->; [|done..].
      right. apply Broken_wrecked.
    + by rewrite _addr_locked in E.
Qed.

(** ** Consecutive requests *)

Lemma serve_app fuel net k1 k2 c :
  serve fuel net (k1 + k2) c =
  match serve fuel net k1 c with
  | Some (l1, c1) =>
      match serve fuel net k2 c1 with
      | Some (l2, c2) => Some ((l1 ++ l2)%list, c2)
      | None => None
      end
  | None => None
  end.
Proof.
  revert c. induction k1 as [|k1 IH]; intros c; cbn [serve Nat.add].
  - by destruct (serve fuel net k2 c) as [[l2 c2]|].
  - destruct (snd (next_address fuel net c)) as [a c'| | |]; try done.
    rewrite IH. destruct (serve fuel net k1 c') as [[l1 c1]|]; [|done].
    by destruct (serve fuel net k2 c1) as [[l2 c2]|].
Qed.

Lemma set_generator_same c i :
  __generator c = Some (GenSuspended i) ->
  set_generator c (Some (GenSuspended i)) = c.
Proof. destruct c; cbn. by intros ->. Qed.

Lemma set_generator_twice c g g' :
  set_generator (set_generator c g) g' = set_generator c g'.
Proof. done. Qed.

(** From a populated pool whose iterator is at [i], the request number [j]
    (counted from 0) returns the address at position [(i + j) mod N]. *)
Lemma serve_spec fuel net k : forall c i,
  3 <= fuel -> Populated c i ->
  exists outs,
    serve fuel net k c =
    Some (outs,
          set_generator c
            (Some (GenSuspended (S ((i + k - 1) mod length (_addresses c))))))
    /\ length outs = k
    /\ forall j, j < k ->
         outs !! j = _addresses c !! ((i + j) mod length (_addresses c)).
Proof.
  induction k as [|k IH]; intros c i Hfuel Hpop.
  - exists []. destruct Hpop as [Hlock Hgen Hrange Hauth].
    split; [|split; [done|lia]]. cbn [serve].
    rewrite Nat.add_0_r, Nat.mod_small by lia.
    replace (S (i - 1)) with i by lia. by rewrite set_generator_same.
  - destruct (next_address_populated fuel net c i Hpop Hfuel) as (a & Ha & Hn).
    pose proof Hpop as [Hlock Hgen Hrange Hauth].
    set (N := length (_addresses c)) in *.
    assert (HN : i mod N < N) by (apply Nat.mod_upper_bound; lia).
    destruct (IH (set_generator c (Some (GenSuspended (S (i mod N)))))
                (S (i mod N)) Hfuel) as (outs & Hs & Hlen & Hout).
    { apply (Populated_advance c i); [done|]. fold N. lia. }
    cbn [_addresses set_generator] in Hs, Hout. fold N in Hs, Hout.
    exists (a :: outs). cbn [serve]. rewrite Hn. cbn [snd]. rewrite Hs.
    split; [|split].
    + rewrite set_generator_twice. do 4 f_equal.
      replace (S (i mod N) + k - 1) with (i mod N + k) by lia.
      replace (i + S k - 1) with (i + k) by lia.
      by rewrite Nat.Div0.add_mod_idemp_l.
    + cbn. by rewrite Hlen.
    + intros [|j] Hj; cbn [lookup list_lookup].
      * by rewrite Nat.add_0_r.
      * change ((a :: outs) !! S j) with (outs !! j).
        rewrite Hout by lia. f_equal.
        replace (S (i mod N) + j) with (i mod N + S j) by lia.
        by rewrite Nat.Div0.add_mod_idemp_l.
Qed.

Lemma rotate_nat_add_mod i j N : rotate_nat_add i j N = (i + j) mod N.
Proof.
  unfold rotate_nat_add.
  by rewrite <- Nat2Z.inj_add, <- Nat2Z.inj_mod, Nat2Z.id.
Qed.

Lemma serve_cycle fuel net c i :
  3 <= fuel -> Populated c i ->
  serve fuel net (length (_addresses c)) c = Some (rotate i (_addresses c), c).
Proof.
  intros Hfuel Hpop.
  destruct (serve_spec fuel net (length (_addresses c)) c i Hfuel Hpop)
    as (outs & Hs & Hlen & Hout).
  destruct Hpop as [Hlock Hgen Hrange Hauth].
  rewrite Hs. f_equal. f_equal.
  - apply list_eq. intros j.
    destruct (decide (j < length (_addresses c))) as [Hj|Hj].
    + by rewrite Hout, lookup_rotate_r, rotate_nat_add_mod.
    + rewrite !lookup_ge_None_2; [done|rewrite length_rotate; lia|lia].
  - replace (i + length (_addresses c) - 1)
      with ((i - 1) + 1 * length (_addresses c)) by lia.
    rewrite Nat.Div0.mod_add, Nat.mod_small by lia.
    replace (S (i - 1)) with i by lia. by apply set_generator_same.
Qed.

Lemma rotate_Permutation {A} i (l : list A) : rotate i l ≡ₚ l.
Proof.
  unfold rotate. rewrite (comm (++)). by rewrite take_drop.
Qed.

(** ** The pool: sample states *)

Lemma sample_pool_init :
  Circle_init 3 (system_net three) "hcp.example.com" 443 =
  ([CallGetaddrinfo "hcp.example.com" 443], Ret tt sample_pool).
Proof. reflexivity. Defined.

Lemma sample_pool_Populated : Populated sample_pool 1.
Proof. split; cbn; [reflexivity|reflexivity|lia|reflexivity]. Defined.

Lemma sample_pool_unfailed : unfailed sample_pool.
Proof. exact (unf_init _ _ _ _ _ _ sample_pool_init). Defined.

Lemma sample_pool_reachable : reachable sample_pool.
Proof. exact (reach_init _ _ _ _ _ _ sample_pool_init). Defined.

(** ** The pool: round robin *)

(** C5: without a refresh in between, as many requests as the pool caches
    addresses return every cached address once, in the order of the list
    taken cyclically from the iterator's position, and leave the pool in the
    state it started from; twice as many requests return that same sequence
    twice, so that no address comes a second time before all have come
    once. *)
Theorem round_robin_full_cycle fuel net c i :
  3 <= fuel -> Populated c i ->
  let addrs := _addresses c in
  serve fuel net (length addrs) c = Some (rotate i addrs, c) /\
  serve fuel net (2 * length addrs) c =
    Some ((rotate i addrs ++ rotate i addrs)%list, c) /\
  rotate i addrs ≡ₚ addrs.
Proof.
  intros Hfuel Hpop addrs. subst addrs.
  pose proof (serve_cycle fuel net c i Hfuel Hpop) as Hs.
  split; [done|]. split; [|apply rotate_Permutation].
  replace (2 * length (_addresses c))
    with (length (_addresses c) + length (_addresses c)) by lia.
  by rewrite serve_app, Hs, Hs.
Qed.

Lemma round_robin_full_cycle_witness :
  serve 3 down_net 3 sample_pool =
    Some (["10.0.0.2"; "10.0.0.3"; "10.0.0.1"], sample_pool) /\
  serve 3 down_net 6 sample_pool =
    Some (["10.0.0.2"; "10.0.0.3"; "10.0.0.1";
           "10.0.0.2"; "10.0.0.3"; "10.0.0.1"], sample_pool) /\
  ["10.0.0.2"; "10.0.0.3"; "10.0.0.1"] ≡ₚ three.
Proof.
  apply (round_robin_full_cycle 3 down_net sample_pool 1).
  - lia.
  - exact sample_pool_Populated.
Defined.

(** C4, as the code has it: a refresh that succeeds installs the newly
    resolved list, and the requests that follow go round it starting from
    its second address, because the refresh itself has taken the first:
    request number [j] (counted from 0) after the refresh returns the address
    at position [(1 + j) mod N] of the new list. *)
Theorem refresh_restarts_cycle fuel net net' c i a l k :
  3 <= fuel -> Populated c i ->
  getaddrinfo net (__authority c) 443 = GaiList (a :: l) ->
  let new := sockaddr_hosts (a :: l) in
  exists c' outs c'',
    refresh fuel net c = ([CallGetaddrinfo (__authority c) 443], Ret tt c') /\
    _addresses c' = new /\
    serve fuel net' k c' = Some (outs, c'') /\
    length outs = k /\
    forall j, j < k -> outs !! j = new !! ((1 + j) mod length new).
Proof.
  intros Hfuel [Hlock Hgen Hrange Hauth] Hnet new.
  rewrite refresh_unfold, (_addr_resolve_ok fuel net _ c a l) by (done || lia).
  cbn [fst snd discard]. fold new.
  destruct (serve_spec fuel net' k (installed c new) 1 Hfuel)
    as (outs & Hs & Hlen & Hout).
  { by apply Populated_installed. }
  eauto 10.
Qed.

Lemma refresh_restarts_cycle_witness :
  exists c' outs c'',
    refresh 3 (system_net ["10.0.1.1"; "10.0.1.2"]) sample_pool =
      ([CallGetaddrinfo "hcp.example.com" 443], Ret tt c') /\
    _addresses c' = ["10.0.1.1"; "10.0.1.2"] /\
    serve 3 down_net 4 c' = Some (outs, c'') /\
    length outs = 4 /\
    forall j, j < 4 ->
      outs !! j = ["10.0.1.1"; "10.0.1.2"] !! ((1 + j) mod 2).
Proof.
  apply (refresh_restarts_cycle 3 (system_net ["10.0.1.1"; "10.0.1.2"])
           down_net sample_pool 1 (AddrInfo 2 2 17 "" ("10.0.1.1", 443%Z))
           [AddrInfo 2 2 17 "" ("10.0.1.2", 443%Z)] 4).
  - lia.
  - exact sample_pool_Populated.
  - reflexivity.
Defined.

(** C4, as stated, fails: after a refresh that installed two addresses the
    first request returns the second of them, not the first. *)
Lemma refresh_first_request_skips_head :
  exists c' c'',
    refresh 3 (system_net ["10.0.1.1"; "10.0.1.2"]) sample_pool =
      ([CallGetaddrinfo "hcp.example.com" 443], Ret tt c') /\
    _addresses c' = ["10.0.1.1"; "10.0.1.2"] /\
    next_address 3 down_net c' = ([], Ret "10.0.1.2" c'') /\
    "10.0.1.2" <> "10.0.1.1".
Proof. do 2 eexists. repeat split. discriminate. Qed.

(** ** The pool: termination and failures *)

(** C9: a request on a pool whose cached list is not empty returns an
    address; a resolution that succeeds with no address (the system resolver
    returning an empty list, which [query] reports as a success) makes the
    generator loop without ever reaching its [yield], so that the call which
    started it returns for no amount of fuel. *)
Theorem next_address_terminates_unless_empty fuel net net0 c :
  reachable c -> _addresses c <> [] -> 3 <= fuel ->
  getaddrinfo net0 (__authority c) 443 = GaiList [] ->
  (exists a c', next_address fuel net c = ([], Ret a c')) /\
  snd (query net0 (__authority c) true) =
    Return (Response (__authority c) true [] "") /\
  (forall fuel', snd (refresh fuel' net0 c) = OutOfFuel) /\
  (forall fuel' port,
     snd (Circle_init fuel' net0 (__authority c) port) = OutOfFuel).
Proof.
  intros Hreach Hne Hfuel Hnet0.
  destruct (reachable_inv c Hreach) as [[i Hpop]|[_ _ Hempty]]; [|done].
  pose proof Hpop as [Hlock Hgen Hrange Hauth].
  split; [|split; [|split]].
  - destruct (next_address_populated fuel net c i Hpop Hfuel) as (a & _ & Hn).
    eauto.
  - by rewrite query_system, Hnet0.
  - intros fuel'. rewrite refresh_unfold.
    by rewrite _addr_resolve_empty.
  - intros fuel' port. rewrite Circle_init_unfold. cbn zeta.
    by rewrite _addr_resolve_empty.
Qed.

Lemma next_address_terminates_unless_empty_witness :
  (exists a c', next_address 3 down_net sample_pool = ([], Ret a c')) /\
  snd (query (system_net []) "hcp.example.com" true) =
    Return (Response "hcp.example.com" true [] "") /\
  (forall fuel', snd (refresh fuel' (system_net []) sample_pool) = OutOfFuel) /\
  (forall fuel' port,
     snd (Circle_init fuel' (system_net []) "hcp.example.com" port) =
     OutOfFuel).
Proof.
  apply (next_address_terminates_unless_empty 3 down_net (system_net [])
           sample_pool).
  - exact sample_pool_reachable.
  - discriminate.
  - lia.
  - reflexivity.
Defined.

(** C7, as the code has it: on a pool that was constructed and on which
    every call since has returned (no refresh has raised), a request returns
    an address, and the pool stays such a pool. *)
Theorem next_address_serves_unfailed fuel net c :
  unfailed c -> 3 <= fuel ->
  exists a c', next_address fuel net c = ([], Ret a c') /\ unfailed c'.
Proof.
  intros Hunf Hfuel. destruct (unfailed_Populated c Hunf) as [i Hpop].
  destruct (next_address_populated fuel net c i Hpop Hfuel) as (a & _ & Hn).
  exists a, (set_generator c
               (Some (GenSuspended (S (i mod length (_addresses c)))))).
  split; [done|]. by eapply unf_next.
Qed.

Lemma next_address_serves_unfailed_witness :
  exists a c',
    next_address 3 down_net sample_pool = ([], Ret a c') /\ unfailed c'.
Proof.
  apply (next_address_serves_unfailed 3 down_net sample_pool).
  - exact sample_pool_unfailed.
  - lia.
Defined.

(** C7, as stated, fails: a pool is constructed, a refresh raises, and the
    next request waits for the lock that the refresh still holds, whatever
    the fuel and the network. *)
Lemma next_address_blocked_after_failed_refresh :
  exists c c',
    Circle_init 3 (system_net three) "hcp.example.com" 443 =
      ([CallGetaddrinfo "hcp.example.com" 443], Ret tt c) /\
    refresh 3 down_net c =
      ([CallGetaddrinfo "hcp.example.com" 443],
       Exc (IpsError "[Errno -2] Name or service not known") c') /\
    forall fuel net, next_address fuel net c' = ([], Blocked).
Proof. do 2 eexists. split; [reflexivity|]. split; reflexivity. Qed.

(** C2, as the code has it: when the resolution of a refresh fails, the
    caller gets an [IpsError] carrying the failure description; the cached
    list has been emptied and the generator that served it replaced by one
    that is finished. *)
Theorem refresh_failure_discards_cache fuel net c i msg :
  Populated c i ->
  getaddrinfo net (__authority c) 443 = GaiRaise msg -> truthy msg = true ->
  exists c',
    refresh fuel net c =
      ([CallGetaddrinfo (__authority c) 443], Exc (IpsError msg) c') /\
    _addresses c' = [] /\
    __generator c' = Some GenFinished.
Proof.
  intros [Hlock Hgen Hrange Hauth] Hnet Hmsg. exists (wrecked c).
  rewrite refresh_unfold, (_addr_resolve_fail fuel net _ c msg) by done.
  done.
Qed.

Lemma refresh_failure_discards_cache_witness :
  exists c',
    refresh 3 down_net sample_pool =
      ([CallGetaddrinfo "hcp.example.com" 443],
       Exc (IpsError "[Errno -2] Name or service not known") c') /\
    _addresses c' = [] /\
    __generator c' = Some GenFinished.
Proof.
  apply (refresh_failure_discards_cache 3 down_net sample_pool 1
           "[Errno -2] Name or service not known").
  - exact sample_pool_Populated.
  - reflexivity.
  - reflexivity.
Defined.

(** C2, as stated, fails: the refresh that raises leaves neither the list
    nor the generator as they were, and the request that follows does not
    return. *)
Lemma refresh_failure_changes_state :
  exists e c',
    refresh 3 down_net sample_pool =
      ([CallGetaddrinfo "hcp.example.com" 443], Exc e c') /\
    _addresses sample_pool = three /\
    _addresses c' <> _addresses sample_pool /\
    __generator c' <> __generator sample_pool /\
    (exists c'', next_address 3 down_net sample_pool =
                   ([], Ret "10.0.0.2" c'')) /\
    forall fuel, next_address fuel down_net c' = ([], Blocked).
Proof.
  do 2 eexists. split; [reflexivity|].
  split; [reflexivity|]. split; [discriminate|]. split; [discriminate|].
  split; [eexists; reflexivity|]. reflexivity.
Qed.

(** ** The pool: which resolver, which port *)

(** C1, as the code has it: the constructor and [refresh] resolve the
    authority name by [query(name, cache=True)], the system resolver: the one
    lookup they perform is [getaddrinfo] on the name and port 443, and the
    list they install on success is the one of that result. *)
Theorem pool_resolves_through_system_resolver fuel net name port c :
  truthy name = true ->
  _cLock c = false -> truthy (__authority c) = true ->
  (fst (Circle_init fuel net name port) = fst (query net name true) /\
   fst (refresh fuel net c) = fst (query net (__authority c) true)) /\
  (forall n, fst (query net n true) = [CallGetaddrinfo n 443]) /\
  (forall calls c',
     Circle_init fuel net name port = (calls, Ret tt c') ->
     exists r, snd (query net name true) = Return r /\ cache r = true /\
               _addresses c' = ips r) /\
  (forall calls c',
     refresh fuel net c = (calls, Ret tt c') ->
     exists r, snd (query net (__authority c) true) = Return r /\
               cache r = true /\ _addresses c' = ips r).
Proof.
  intros Hname Hlock Hauth.
  assert (Hret : forall nm c0 calls c',
            _cLock c0 = false -> truthy nm = true ->
            (fst (_addr fuel net (Some nm) c0),
             discard (snd (_addr fuel net (Some nm) c0))) =
              (calls, Ret tt c') ->
            exists r, snd (query net nm true) = Return r /\ cache r = true /\
                      _addresses c' = ips r).
  { intros nm c0 calls c' Hl Hn [= _ Hd].
    apply discard_Ret in Hd as [v Hd].
    destruct (_addr fuel net (Some nm) c0) as [calls' o] eqn:E.
    cbn in Hd. subst o.
    apply _addr_resolve_Ret in E as (l & Hnet & _ & ->); [|done..].
    rewrite query_system, Hnet. eauto. }
  split; [|split; [|split]].
  - rewrite Circle_init_unfold, refresh_unfold. cbn zeta.
    by rewrite !_addr_resolve, !query_system.
  - intros n. by rewrite query_system.
  - intros calls c'. rewrite Circle_init_unfold. cbn zeta. by apply Hret.
  - intros calls c'. rewrite refresh_unfold. by apply Hret.
Qed.

Lemma pool_resolves_through_system_resolver_witness :
  (fst (Circle_init 3 split_net "hcp.example.com" 443) =
     fst (query split_net "hcp.example.com" true) /\
   fst (refresh 3 split_net sample_pool) =
     fst (query split_net "hcp.example.com" true)) /\
  (forall n, fst (query split_net n true) = [CallGetaddrinfo n 443]) /\
  (forall calls c',
     Circle_init 3 split_net "hcp.example.com" 443 = (calls, Ret tt c') ->
     exists r, snd (query split_net "hcp.example.com" true) = Return r /\
               cache r = true /\ _addresses c' = ips r) /\
  (forall calls c',
     refresh 3 split_net sample_pool = (calls, Ret tt c') ->
     exists r, snd (query split_net "hcp.example.com" true) = Return r /\
               cache r = true /\ _addresses c' = ips r).
Proof.
  apply (pool_resolves_through_system_resolver 3 split_net
           "hcp.example.com" 443 sample_pool); reflexivity.
Defined.

(** C1, as stated, fails: on a network whose resolvers disagree, the
    constructor and [refresh] perform no direct query; they call
    [getaddrinfo] and cache its answer, not the one of the direct query. *)
Lemma pool_does_not_bypass_cache :
  exists c c',
    Circle_init 3 split_net "hcp.example.com" 443 =
      ([CallGetaddrinfo "hcp.example.com" 443], Ret tt c) /\
    refresh 3 split_net c =
      ([CallGetaddrinfo "hcp.example.com" 443], Ret tt c') /\
    query split_net "hcp.example.com" false =
      ([CallResolverQuery "hcp.example.com"],
       Return (Response "hcp.example.com" false ["10.9.9.9"] "")) /\
    _addresses c = ["10.0.0.1"] /\ _addresses c' = ["10.0.0.1"] /\
    [CallGetaddrinfo "hcp.example.com" 443] <>
      [CallResolverQuery "hcp.example.com"].
Proof.
  do 2 eexists. split; [reflexivity|]. split; [reflexivity|].
  split; [reflexivity|]. split; [reflexivity|]. split; [reflexivity|].
  discriminate.
Qed.

(** ** The port *)

(** No statement of [__addr] or [_addr] reads the port. *)
Lemma gen_next_set_port fuel net g c p :
  gen_next fuel net g (set_port c p) =
  (fst (gen_next fuel net g c),
   resumed_with_port p (snd (gen_next fuel net g c))).
Proof.
  destruct g as [d|i|]; cbn [gen_next]; [|unfold resume_loop..|done].
  - rewrite query_system.
    destruct (getaddrinfo net d 443) as [l|msg]; cbn [raised ips truthy].
    + unfold resume_loop. cbn [_addresses set_addresses].
      by destruct (run_loop fuel AtWhile (sockaddr_hosts l)) as [[v i]|].
    + destruct (truthy msg); [done|].
      unfold resume_loop. cbn [_addresses set_addresses].
      by rewrite run_loop_empty.
  - change (_addresses (set_port c p)) with (_addresses c).
    by destruct (run_loop fuel (AtFor i) (_addresses c)) as [[v j]|].
Qed.

Lemma _addr_set_port fuel net name c p :
  _addr fuel net name (set_port c p) =
  (fst (_addr fuel net name c), with_port p (snd (_addr fuel net name c))).
Proof.
  unfold _addr. cbv zeta.
  change (_cLock (set_port c p)) with (_cLock c).
  destruct (_cLock c); [done|].
  destruct (given name) as [s|].
  - change (set_generator (set_cLock (set_port c p) true)
              (Some (GenCreated s)))
      with (set_port (set_generator (set_cLock c true) (Some (GenCreated s)))
              p).
    cbn [__generator set_generator set_port]. fold (set_port (set_cLock c true) p).
    change (MkCircle (__authority (set_cLock c true)) p
              (_cLock (set_cLock c true)) (Some (GenCreated s))
              (_addresses (set_cLock c true)))
      with (set_port (set_generator (set_cLock c true) (Some (GenCreated s)))
              p).
    rewrite gen_next_set_port.
    by destruct (gen_next fuel net (GenCreated s) _) as [calls [v g' c'|e c'|]].
  - change (__generator (set_cLock (set_port c p) true))
      with (__generator (set_cLock c true)).
    destruct (__generator (set_cLock c true)) as [g|]; [|done].
    change (set_cLock (set_port c p) true) with (set_port (set_cLock c true) p).
    rewrite gen_next_set_port.
    by destruct (gen_next fuel net g _) as [calls [v g' c'|e c'|]].
Qed.

Lemma perform_set_port fuel net r c p :
  perform fuel net r (set_port c p) =
  (fst (perform fuel net r c),
   option_map (fun c' => set_port c' p) (snd (perform fuel net r c))).
Proof.
  destruct r; unfold perform, next_address.
  - rewrite _addr_set_port.
    by destruct (_addr fuel net None c) as [calls [v c'|e c'| |]].
  - rewrite !refresh_unfold. cbn [__authority set_port].
    change (__authority (set_port c p)) with (__authority c).
    rewrite _addr_set_port.
    by destruct (_addr fuel net (Some (__authority c)) c)
      as [calls [v c'|e c'| |]].
Qed.

Lemma run_set_port fuel h : forall c p,
  run fuel (set_port c p) h = run fuel c h.
Proof.
  induction h as [|[r net] h IH]; intros c p; [done|].
  cbn [run]. rewrite perform_set_port.
  destruct (perform fuel net r c) as [seen [c'|]]; cbn; [|done].
  by rewrite IH.
Qed.

Lemma gen_next_calls_443 fuel net g c :
  Forall on_port_443 (fst (gen_next fuel net g c)).
Proof.
  destruct g as [d|i|]; [|constructor..].
  cbn [gen_next]. rewrite query_system. cbn [fst].
  repeat constructor. by exists d.
Qed.

Lemma _addr_calls_443 fuel net name c :
  Forall on_port_443 (fst (_addr fuel net name c)).
Proof.
  unfold _addr. cbv zeta. destruct (_cLock c); [constructor|].
  destruct (__generator _) as [g|]; [|constructor].
  pose proof (gen_next_calls_443 fuel net g
    match given name with
    | Some s => set_generator (set_cLock c true) (Some (GenCreated s))
    | None => set_cLock c true
    end) as H.
  by destruct (gen_next fuel net g _) as [calls r].
Qed.

Lemma perform_calls_443 fuel net r c :
  Forall on_port_443 (fst (fst (perform fuel net r c))).
Proof.
  destruct r; unfold perform, next_address.
  - pose proof (_addr_calls_443 fuel net None c) as H.
    by destruct (_addr fuel net None c) as [calls o].
  - rewrite refresh_unfold.
    apply (_addr_calls_443 fuel net (Some (__authority c)) c).
Qed.

Lemma run_calls_443 fuel h : forall c,
  Forall (fun seen => Forall on_port_443 (fst seen)) (run fuel c h).
Proof.
  induction h as [|[r net] h IH]; intros c; [constructor|].
  cbn [run]. pose proof (perform_calls_443 fuel net r c) as H.
  destruct (perform fuel net r c) as [seen [c'|]]; cbn in *;
    repeat constructor; auto.
Qed.

(** C10: the port given to the constructor changes nothing of what a
    session shows: for two ports, the same name and the same networks, the
    constructor and every request after it perform the same lookups and
    return or raise the same values; and every lookup is made on port 443. *)
Theorem port_has_no_influence fuel net name p1 p2 h :
  session fuel net name p1 h = session fuel net name p2 h /\
  Forall (fun seen => Forall on_port_443 (fst seen))
    (session fuel net name p1 h).
Proof.
  unfold session. rewrite !Circle_init_unfold. cbn zeta.
  change (MkCircle name p2 false None [])
    with (set_port (MkCircle name p1 false None []) p2).
  rewrite _addr_set_port.
  pose proof (_addr_calls_443 fuel net (Some name)
                (MkCircle name p1 false None [])) as H443.
  destruct (_addr fuel net (Some name) (MkCircle name p1 false None []))
    as [calls [v c|e c| |]]; cbn in *.
  - rewrite run_set_port. split; [done|].
    constructor; [done|apply run_calls_443].
  - split; [done|]. by repeat constructor.
  - split; [done|]. by repeat constructor.
  - split; [done|]. by repeat constructor.
Qed.

(** ** The resolver: normalization of the records *)

Lemma length_append_string (s1 s2 : string) :
  String.length (s1 +:+ s2) = String.length s1 + String.length s2.
Proof. induction s1 as [|ch s1 IH]; simpl; [done|by f_equal]. Qed.

Lemma substring_whole (s : string) : substring 0 (String.length s) s = s.
Proof. induction s as [|ch s IH]; simpl; [done|by f_equal]. Qed.

Lemma substring_after_prefix (pre s : string) :
  substring (String.length pre) (String.length s) (pre +:+ s) = s.
Proof. induction pre as [|ch pre IH]; simpl; [apply substring_whole|done]. Qed.

Lemma py_suffix_append (pre s : string) n :
  String.length s = n -> py_suffix (pre +:+ s) n = s.
Proof.
  intros <-. unfold py_suffix, py_slice_from. rewrite length_append_string.
  replace (String.length pre + String.length s - String.length s)
    with (String.length pre) by lia.
  replace (String.length pre + String.length s - String.length pre)
    with (String.length s) by lia.
  apply substring_after_prefix.
Qed.

Lemma hex_digit_table h v : hex_digit h = Some v -> In (h, v) hex_table.
Proof.
  intros H.
  destruct h as [[] [] [] [] [] [] [] []]; vm_compute in H;
    try discriminate H; injection H as <-; vm_compute; tauto.
Qed.

Lemma py_int16_octet hi lo v :
  octet hi lo = Some v -> py_int16 (String hi (String lo "")) = Return v.
Proof.
  unfold octet.
  destruct (hex_digit hi) as [a|] eqn:Ha; [|discriminate].
  destruct (hex_digit lo) as [b|] eqn:Hb; [|discriminate].
  intros [= <-].
  apply hex_digit_table in Ha, Hb. unfold hex_table in Ha, Hb.
  repeat (destruct Ha as [[= <- <-]|Ha]; [|]); try (destruct Ha);
  repeat (destruct Hb as [[= <- <-]|Hb]; [|]); try (destruct Hb);
  vm_compute; reflexivity.
Qed.

Lemma normalize_normalized record out :
  normalized record out -> normalize record = Return out.
Proof.
  intros [pre h1 h2 h3 h4 h5 h6 h7 h8 a b c d record' Hget Ha Hb Hc Hd
         |record' second Hget Hne]; unfold normalize, py_index;
    rewrite Hget; cbn [mbind py_bind].
  - change (Ascii.eqb "#" "#") with true. cbv iota.
    subst record'. rewrite (py_suffix_append pre _ 8) by done.
    change (py_slice (String h1 _) 0 2) with (String h1 (String h2 "")).
    change (py_slice (String h1 _) 2 4) with (String h3 (String h4 "")).
    change (py_slice (String h1 _) 4 6) with (String h5 (String h6 "")).
    change (py_slice_from (String h1 _) 6) with (String h7 (String h8 "")).
    rewrite (py_int16_octet _ _ _ Ha). cbn [mbind py_bind].
    rewrite (py_int16_octet _ _ _ Hb). cbn [mbind py_bind].
    rewrite (py_int16_octet _ _ _ Hc). cbn [mbind py_bind].
    rewrite (py_int16_octet _ _ _ Hd). done.
  - by apply Ascii.eqb_neq in Hne as ->.
Qed.

Lemma append_records_normalized rrset outs : forall r,
  Forall2 normalized rrset outs ->
  append_records r rrset =
  Return (Response (fqdn r) (cache r) (ips r ++ outs) (raised r)).
Proof.
  intros r H. revert r.
  induction H as [|record out rrset outs Hn _ IH]; intros r;
    cbn [append_records].
  - rewrite app_nil_r. by destruct r.
  - rewrite (normalize_normalized _ _ Hn). cbn [mbind py_bind].
    rewrite IH. cbn [append_ip fqdn cache ips raised].
    by rewrite <- app_assoc.
Qed.

(** C6: on the direct-query path every record of the answer is normalized
    before it is appended: a record with the type marker as second character
    and eight hexadecimal characters at its end becomes the dotted decimal
    form of the four octets they write, any other record is appended as its
    string form; the result lists the normalized records in the order of the
    answer. *)
Theorem query_normalizes_every_record net name rrset outs :
  resolver_query net name = DnsAnswer rrset ->
  rrset <> [] ->
  Forall2 normalized rrset outs ->
  Forall2 (fun record out => normalize record = Return out) rrset outs /\
  query net name false =
  ([CallResolverQuery name], Return (Response name false outs "")).
Proof.
  intros Hnet Hne Hall. split.
  - eapply Forall2_impl; [exact Hall|]. apply normalize_normalized.
  - unfold query. rewrite Hnet.
    rewrite (append_records_normalized rrset outs) by done.
    cbn [mbind py_bind response_init fqdn cache ips raised app].
    destruct Hall as [|record out rrset outs]; [done|]. done.
Qed.

Lemma query_normalizes_every_record_witness :
  Forall2 (fun record out => normalize record = Return out)
    ["\# 4 C0A80101"; "10.0.0.7"] ["192.168.1.1"; "10.0.0.7"] /\
  query (direct_net ["\# 4 C0A80101"; "10.0.0.7"]) "hcp.example.com" false =
  ([CallResolverQuery "hcp.example.com"],
   Return (Response "hcp.example.com" false ["192.168.1.1"; "10.0.0.7"] "")).
Proof.
  apply (query_normalizes_every_record
           (direct_net ["\# 4 C0A80101"; "10.0.0.7"]) "hcp.example.com"
           ["\# 4 C0A80101"; "10.0.0.7"] ["192.168.1.1"; "10.0.0.7"]).
  - reflexivity.
  - discriminate.
  - constructor; [|constructor; [|constructor]].
    + exact (normalized_generic "\# 4 " "C" "0" "A" "8" "0" "1" "0" "1"
               192 168 1 1 eq_refl eq_refl eq_refl eq_refl eq_refl).
    + apply (normalized_plain "10.0.0.7" "0"); [reflexivity|discriminate].
Defined.

(** ** The resolver: what [query] returns *)

Lemma query_system_returns net name :
  exists r, snd (query net name true) = Return r.
Proof. rewrite query_system. eauto. Qed.

Lemma query_direct_failure net name e :
  resolver_query net name = DnsRaise e ->
  query net name false =
  ([CallResolverQuery name],
   Return (Response name false [] (dns_error_message e))).
Proof. intros H. unfold query. by rewrite H. Qed.

Lemma append_records_raised rrset : forall r r',
  append_records r rrset = Return r' -> raised r' = raised r.
Proof.
  induction rrset as [|record rrset IH]; intros r r'; cbn [append_records].
  - by intros [= <-].
  - destruct (normalize record) as [ip|e]; cbn [mbind py_bind]; [|done].
    intros H. by apply IH in H.
Qed.

(** A result never has both addresses and a failure description. *)
Lemma query_not_both net name use_cache r :
  snd (query net name use_cache) = Return r ->
  truthy (raised r) = true -> ips r = [].
Proof.
  destruct use_cache.
  - rewrite query_system. cbn [snd].
    destruct (getaddrinfo net name 443) as [l|msg]; by intros [= <-].
  - unfold query. cbn [snd].
    destruct (resolver_query net name) as [rrset|e]; [|by intros [= <-]].
    destruct (append_records _ rrset) as [r0|e] eqn:E;
      cbn [mbind py_bind]; [|done].
    apply append_records_raised in E. cbn in E.
    destruct (ips r0) as [|ip l] eqn:Hips; cbn [length Nat.eqb].
    + intros [= <-]. done.
    + intros [= <-]. by rewrite E.
Qed.

(** C3: [query] lets an exception out. The normalization of lines 187-191
    runs in the [else] clause of the [try], which no handler covers: on an
    answer holding a generic record of one byte, [int] raises [ValueError]
    and the call raises it to its caller. *)
Theorem query_raises_on_short_generic_record :
  query (direct_net ["\# 1 c0"]) "hcp.example.com" false =
  ([CallResolverQuery "hcp.example.com"], Raise ValueError).
Proof. reflexivity. Qed.

(** C8: on the system-resolver path an empty list of [getaddrinfo] gives a
    result with no address and no failure description, where the direct
    path turns an empty answer into the failure [no response]; on both paths
    so does an exception whose [str()] is empty. *)
Theorem query_empty_success_on_system_path :
  query (system_net []) "hcp.example.com" true =
    ([CallGetaddrinfo "hcp.example.com" 443],
     Return (Response "hcp.example.com" true [] "")) /\
  query (direct_net []) "hcp.example.com" false =
    ([CallResolverQuery "hcp.example.com"],
     Return (Response "hcp.example.com" false [] "no response")) /\
  query silent_net "hcp.example.com" true =
    ([CallGetaddrinfo "hcp.example.com" 443],
     Return (Response "hcp.example.com" true [] "")) /\
  query silent_net "hcp.example.com" false =
    ([CallResolverQuery "hcp.example.com"],
     Return (Response "hcp.example.com" false [] "")).
Proof. repeat split; reflexivity. Qed.

(** * Further properties of hcpsdk.ips *)

(** ** The constructor *)

(** X1: when the lookup of the constructor raises (with a message that is
    not empty), the constructor raises [IpsError] with that message after
    the one [getaddrinfo] lookup, and hands no pool to the caller. *)
Theorem Circle_init_resolution_failure fuel net name port msg :
  truthy name = true ->
  getaddrinfo net name 443 = GaiRaise msg -> truthy msg = true ->
  exists c,
    Circle_init fuel net name port =
      ([CallGetaddrinfo name 443], Exc (IpsError msg) c) /\
    forall h,
      session fuel net name port h =
      [([CallGetaddrinfo name 443], ObsRaised (IpsError msg))].
Proof.
  intros Hname Hnet Hmsg.
  exists (wrecked (MkCircle name port false None [])).
  assert (E : Circle_init fuel net name port =
              ([CallGetaddrinfo name 443],
               Exc (IpsError msg) (wrecked (MkCircle name port false None [])))).
  { rewrite Circle_init_unfold. cbn zeta.
    by rewrite (_addr_resolve_fail fuel net name _ msg). }
  split; [done|]. intros h. unfold session. by rewrite E.
Qed.

Lemma Circle_init_resolution_failure_witness :
  exists c,
    Circle_init 3 down_net "hcp.example.com" 443 =
      ([CallGetaddrinfo "hcp.example.com" 443],
       Exc (IpsError "[Errno -2] Name or service not known") c) /\
    forall h,
      session 3 down_net "hcp.example.com" 443 h =
      [([CallGetaddrinfo "hcp.example.com" 443],
        ObsRaised (IpsError "[Errno -2] Name or service not known"))].
Proof.
  apply (Circle_init_resolution_failure 3 down_net "hcp.example.com" 443
           "[Errno -2] Name or service not known"); reflexivity.
Defined.

(** X2: the constructor called with the empty name makes no lookup at all:
    [if fqdn:] is false, no generator is created, and [next(None)] raises
    [TypeError], whatever the network, the port and the fuel. *)
Theorem Circle_init_empty_name fuel net port h :
  session fuel net "" port h = [([], ObsRaised TypeError)].
Proof. reflexivity. Qed.

(** X3: the first request after a construction returns the second address
    of the resolved list, because the constructor has taken the first: after
    the constructor returned on the list [a :: l], request number [j]
    (counted from 0) returns the address at position [(1 + j) mod N]. *)
Theorem Circle_init_skips_first_address fuel net net' name port a l k :
  3 <= fuel -> truthy name = true ->
  getaddrinfo net name 443 = GaiList (a :: l) ->
  let hosts := sockaddr_hosts (a :: l) in
  exists c outs c',
    Circle_init fuel net name port =
      ([CallGetaddrinfo name 443], Ret tt c) /\
    _addresses c = hosts /\
    serve fuel net' k c = Some (outs, c') /\
    length outs = k /\
    forall j, j < k -> outs !! j = hosts !! ((1 + j) mod length hosts).
Proof.
  intros Hfuel Hname Hnet hosts.
  rewrite Circle_init_unfold. cbn zeta.
  rewrite (_addr_resolve_ok fuel net name _ a l) by (done || lia).
  cbn [fst snd discard]. fold hosts.
  destruct (serve_spec fuel net' k
              (installed (MkCircle name port false None []) hosts) 1 Hfuel)
    as (outs & Hs & Hlen & Hout).
  { by apply Populated_installed. }
  eauto 10.
Qed.

Lemma Circle_init_skips_first_address_witness :
  exists c outs c',
    Circle_init 3 (system_net three) "hcp.example.com" 443 =
      ([CallGetaddrinfo "hcp.example.com" 443], Ret tt c) /\
    _addresses c = three /\
    serve 3 down_net 1 c = Some (outs, c') /\
    length outs = 1 /\
    forall j, j < 1 -> outs !! j = three !! ((1 + j) mod 3).
Proof.
  apply (Circle_init_skips_first_address 3 (system_net three) down_net
           "hcp.example.com" 443 (AddrInfo 2 2 17 "" ("10.0.0.1", 443%Z))
           [AddrInfo 2 2 17 "" ("10.0.0.2", 443%Z);
            AddrInfo 2 2 17 "" ("10.0.0.3", 443%Z)] 1).
  - lia.
  - reflexivity.
  - reflexivity.
Defined.

(** ** Requests and refreshes *)

Lemma perform_locked fuel net r c :
  _cLock c = true -> perform fuel net r c = ([], ObsBlocked, None).
Proof.
  intros Hlock. destruct r; unfold perform, next_address.
  - by rewrite _addr_locked.
  - by rewrite refresh_unfold, _addr_locked.
Qed.

(** X4: a refresh that raised cannot be retried: the lock it took is never
    released, so every later call on the pool, a request or another refresh,
    under any network and with any fuel, waits for that lock and makes no
    lookup. *)
Theorem failed_refresh_blocks_pool fuel net calls e c c' fuel' net' r h :
  reachable c -> refresh fuel net c = (calls, Exc e c') ->
  perform fuel' net' r c' = ([], ObsBlocked, None) /\
  run fuel' c' ((r, net') :: h) = [([], ObsBlocked)].
Proof.
  intros Hreach Href.
  assert (Hlock : _cLock c' = true).
  { destruct (reachable_inv c' (reach_refresh_exc _ _ _ _ _ _ Hreach Href))
      as [[i [Hl _ _ _]]|[Hl _ _]]; [|done].
    destruct (reachable_inv c Hreach) as [[j [Hlc _ _ Hauth]]|[Hlc _ _]].
    - rewrite refresh_unfold in Href. injection Href as _ Href.
      apply discard_Exc in Href.
      destruct (_addr fuel net _ c) as [calls' o] eqn:E. cbn in Href. subst o.
      by apply _addr_resolve_Exc in E as ->.
    - by rewrite refresh_unfold, _addr_locked in Href. }
  split; [by apply perform_locked|].
  cbn [run]. by rewrite perform_locked.
Qed.

Lemma failed_refresh_blocks_pool_witness :
  perform 3 (system_net three) ReqRefresh (wrecked sample_pool) =
    ([], ObsBlocked, None) /\
  run 3 (wrecked sample_pool)
    [(ReqRefresh, system_net three); (ReqNext, system_net three)] =
    [([], ObsBlocked)].
Proof.
  apply (failed_refresh_blocks_pool 3 down_net
           [CallGetaddrinfo "hcp.example.com" 443]
           (IpsError "[Errno -2] Name or service not known") sample_pool
           (wrecked sample_pool) 3 (system_net three) ReqRefresh
           [(ReqNext, system_net three)]).
  - exact sample_pool_reachable.
  - reflexivity.
Defined.

(** X5: a request makes no lookup and does not depend on the network; when
    it returns, the address is one of the cached list, and the cached list,
    the authority name and the port are as before. *)
Theorem next_address_reads_cache_only fuel net net' c calls a c' :
  reachable c -> next_address fuel net c = (calls, Ret a c') ->
  calls = [] /\
  next_address fuel net' c = ([], Ret a c') /\
  a ∈ _addresses c /\
  _addresses c' = _addresses c /\
  __authority c' = __authority c /\ __port c' = __port c.
Proof.
  intros Hreach Hnext.
  destruct (reachable_inv c Hreach) as [[i [Hlock Hgen _ _]]|[Hlock _ _]].
  - rewrite (next_address_suspended _ _ _ i) in Hnext by done.
    rewrite (next_address_suspended _ net' _ i) by done.
    destruct (run_loop fuel (AtFor i) (_addresses c)) as [[v j]|] eqn:E;
      [|discriminate].
    injection Hnext as <- <- <-.
    apply run_loop_inv in E as [_ Hv].
    repeat split; try done. by eapply list_elem_of_lookup_2.
  - unfold next_address in Hnext. by rewrite _addr_locked in Hnext.
Qed.

Lemma next_address_reads_cache_only_witness :
  ([] : list lookup_call) = [] /\
  next_address 3 (system_net []) sample_pool =
    ([], Ret "10.0.0.2" (set_generator sample_pool (Some (GenSuspended 2)))) /\
  "10.0.0.2" ∈ _addresses sample_pool /\
  _addresses (set_generator sample_pool (Some (GenSuspended 2))) =
    _addresses sample_pool /\
  __authority (set_generator sample_pool (Some (GenSuspended 2))) =
    __authority sample_pool /\
  __port (set_generator sample_pool (Some (GenSuspended 2))) =
    __port sample_pool.
Proof.
  apply (next_address_reads_cache_only 3 down_net (system_net []) sample_pool
           [] "10.0.0.2" (set_generator sample_pool (Some (GenSuspended 2)))).
  - exact sample_pool_reachable.
  - reflexivity.
Defined.

(** X6: no call changes the authority name or the port of the object:
    whenever [_addr] comes back, by a return or by an exception, both are
    the ones the object had, so that every refresh resolves the name given
    to the constructor. *)
Theorem _addr_keeps_authority_and_port fuel net name c calls o c' :
  _addr fuel net name c = (calls, o) -> after o = Some c' ->
  __authority c' = __authority c /\ __port c' = __port c.
Proof.
  unfold _addr. cbv zeta. destruct (_cLock c); [by intros [= _ <-]|].
  set (c1 := match given name with
             | Some s => set_generator (set_cLock c true) (Some (GenCreated s))
             | None => set_cLock c true
             end).
  assert (H1 : __authority c1 = __authority c /\ __port c1 = __port c)
    by (subst c1; by destruct (given name)).
  destruct (__generator c1) as [g|]; [|by intros [= _ <-] [= <-]].
  assert (Hg : forall calls' r,
            gen_next fuel net g c1 = (calls', r) ->
            match r with
            | Yielded _ _ c2 | Thrown _ c2 =>
                __authority c2 = __authority c1 /\ __port c2 = __port c1
            | Spinning => True
            end).
  { intros calls' r. destruct g as [d|i|]; cbn [gen_next].
    - rewrite query_system.
      destruct (getaddrinfo net d 443) as [l|msg]; cbn [raised ips truthy].
      + unfold resume_loop.
        destruct (run_loop _ _ _) as [[v j]|]; by intros [= _ <-].
      + destruct (truthy msg); [by intros [= _ <-]|]. unfold resume_loop.
        destruct (run_loop _ _ _) as [[v j]|]; by intros [= _ <-].
    - unfold resume_loop.
      destruct (run_loop _ _ _) as [[v j]|]; by intros [= _ <-].
    - by intros [= _ <-]. }
  destruct (gen_next fuel net g c1) as [calls' r] eqn:E.
  specialize (Hg _ _ eq_refl). destruct H1 as [Ha Hp].
  destruct r as [v g' c2|e c2|]; intros [= _ <-]; cbn [after];
    intros [= <-]; cbn; destruct Hg as [Ha2 Hp2]; split; congruence.
Qed.

Lemma _addr_keeps_authority_and_port_witness :
  __authority (wrecked sample_pool) = __authority sample_pool /\
  __port (wrecked sample_pool) = __port sample_pool.
Proof.
  apply (_addr_keeps_authority_and_port 3 down_net (Some "hcp.example.com")
           sample_pool [CallGetaddrinfo "hcp.example.com" 443]
           (Exc (IpsError "[Errno -2] Name or service not known")
              (wrecked sample_pool))); reflexivity.
Defined.

(** X7: refreshing twice under the same network is refreshing once: a
    refresh that returned, made again on the state it left, performs the same
    lookup and leaves that same state. *)
Theorem refresh_idempotent fuel net c calls c' :
  reachable c -> refresh fuel net c = (calls, Ret tt c') ->
  refresh fuel net c' = (calls, Ret tt c').
Proof.
  intros Hreach Href.
  destruct (reachable_inv c Hreach) as [[i [Hlock Hgen _ Hauth]]|[Hlock _ _]];
    [|by rewrite refresh_unfold, _addr_locked in Href].
  rewrite refresh_unfold in Href. rewrite refresh_unfold.
  injection Href as Hcalls Href.
  apply discard_Ret in Href as [v Href].
  destruct (_addr fuel net (Some (__authority c)) c) as [calls' o] eqn:E.
  cbn in Hcalls, Href. subst calls' o.
  pose proof E as E'.
  apply _addr_resolve_Ret in E' as (l & Hnet & Hv & ->); [|done..].
  rewrite _addr_resolve in E by done. rewrite Hnet in E.
  cbn [__authority installed].
  rewrite (_addr_resolve fuel net (__authority c)) by done. rewrite Hnet.
  destruct (run_loop fuel AtWhile (sockaddr_hosts l)) as [[w j]|] eqn:Hrun;
    [|discriminate].
  injection E as <- _ _. apply run_loop_while_inv in Hrun as [-> _]. done.
Qed.

Lemma refresh_idempotent_witness :
  refresh 3 (system_net three) sample_pool =
    ([CallGetaddrinfo "hcp.example.com" 443], Ret tt sample_pool).
Proof.
  apply (refresh_idempotent 3 (system_net three) sample_pool
           [CallGetaddrinfo "hcp.example.com" 443] sample_pool).
  - exact sample_pool_reachable.
  - reflexivity.
Defined.

(** * Further properties of [query] *)

(** X8: each exception of the direct query that [query] handles by name
    gives a result without address whose failure description is not empty
    and tells that exception apart from the other seven. *)
Theorem enumerated_failures_are_told_apart net name e :
  resolver_query net name = DnsRaise e -> enumerated e = true ->
  query net name false =
    ([CallResolverQuery name],
     Return (Response name false [] (dns_error_message e))) /\
  truthy (dns_error_message e) = true /\
  forall e', enumerated e' = true ->
             dns_error_message e' = dns_error_message e -> e' = e.
Proof.
  intros Hnet He. split; [by apply query_direct_failure|].
  split; [by destruct e|].
  intros e' He' Hmsg.
  destruct e; try discriminate He; destruct e'; try discriminate He';
    try reflexivity; discriminate Hmsg.
Qed.

Lemma enumerated_failures_are_told_apart_witness :
  query down_net "hcp.example.com" false =
    ([CallResolverQuery "hcp.example.com"],
     Return (Response "hcp.example.com" false []
               (dns_error_message Timeout))) /\
  truthy (dns_error_message Timeout) = true /\
  forall e', enumerated e' = true ->
             dns_error_message e' = dns_error_message Timeout -> e' = Timeout.
Proof.
  apply (enumerated_failures_are_told_apart down_net "hcp.example.com"
           Timeout); reflexivity.
Defined.

Lemma append_records_header rrset : forall r r',
  append_records r rrset = Return r' -> fqdn r' = fqdn r /\ cache r' = cache r.
Proof.
  induction rrset as [|record rrset IH]; intros r r'; cbn [append_records].
  - by intros [= <-].
  - destruct (normalize record) as [ip|e]; cbn [mbind py_bind]; [|done].
    intros H. by apply IH in H.
Qed.

(** X9: every result [query] returns names the queried name and the path
    that was asked for. *)
Theorem query_records_name_and_path net name use_cache r :
  snd (query net name use_cache) = Return r ->
  fqdn r = name /\ cache r = use_cache.
Proof.
  destruct use_cache.
  - rewrite query_system. cbn [snd].
    destruct (getaddrinfo net name 443) as [l|msg]; by intros [= <-].
  - unfold query. cbn [snd].
    destruct (resolver_query net name) as [rrset|e]; [|by intros [= <-]].
    destruct (append_records _ rrset) as [r0|e] eqn:E;
      cbn [mbind py_bind]; [|done].
    apply append_records_header in E. cbn in E.
    destruct (length (ips r0) =? 0)%nat; by intros [= <-].
Qed.

Lemma query_records_name_and_path_witness :
  fqdn (Response "hcp.example.com" false ["10.9.9.9"] "") = "hcp.example.com" /\
  cache (Response "hcp.example.com" false ["10.9.9.9"] "") = false.
Proof.
  apply (query_records_name_and_path split_net "hcp.example.com" false).
  reflexivity.
Defined.

(** X10: on the system-resolver path the result lists the host of every
    entry [getaddrinfo] returned, in that order and without normalization,
    duplicates included, and carries no failure description. *)
Theorem query_system_lists_every_entry net name l :
  getaddrinfo net name 443 = GaiList l ->
  query net name true =
    ([CallGetaddrinfo name 443],
     Return (Response name true (sockaddr_hosts l) "")) /\
  length (sockaddr_hosts l) = length l /\
  forall j a, l !! j = Some a ->
              sockaddr_hosts l !! j = Some (fst (ai_sockaddr a)).
Proof.
  intros Hnet. rewrite query_system, Hnet. split; [done|].
  unfold sockaddr_hosts. split; [apply length_map|].
  intros j a Hj. by rewrite list_lookup_fmap_Some; eauto.
Qed.

Lemma query_system_lists_every_entry_witness :
  query (system_net ["10.0.0.1"; "10.0.0.1"]) "hcp.example.com" true =
    ([CallGetaddrinfo "hcp.example.com" 443],
     Return (Response "hcp.example.com" true ["10.0.0.1"; "10.0.0.1"] "")) /\
  length ["10.0.0.1"; "10.0.0.1"] = 2 /\
  forall j a,
    [AddrInfo 2 2 17 "" ("10.0.0.1", 443%Z);
     AddrInfo 2 2 17 "" ("10.0.0.1", 443%Z)] !! j = Some a ->
    ["10.0.0.1"; "10.0.0.1"] !! j = Some (fst (ai_sockaddr a)).
Proof.
  apply (query_system_lists_every_entry (system_net ["10.0.0.1"; "10.0.0.1"])
           "hcp.example.com"
           [AddrInfo 2 2 17 "" ("10.0.0.1", 443%Z);
            AddrInfo 2 2 17 "" ("10.0.0.1", 443%Z)]).
  reflexivity.
Defined.

(** ** Normalization is idempotent *)

Lemma string_of_uint_digits d :
  all_chars is_dec_digit (NilEmpty.string_of_uint d) = true.
Proof. induction d; cbn [NilEmpty.string_of_uint all_chars]; done. Qed.

Lemma str_of_uint_shape d :
  exists c0 rest, NilZero.string_of_uint d = String c0 rest /\
                  is_dec_digit c0 = true /\ all_chars is_dec_digit rest = true.
Proof.
  destruct d; cbn [NilZero.string_of_uint NilEmpty.string_of_uint];
    eauto using string_of_uint_digits.
Qed.

(** The second character of the text of an integer followed by a dot is a
    digit or the dot. *)
Lemma str_of_int_second n tail :
  exists ch, String.get 1 (str_of_int n +:+ "." +:+ tail) = Some ch /\
             Ascii.eqb ch "#" = false.
Proof.
  unfold str_of_int.
  assert (Hdig : forall ch, is_dec_digit ch = true -> Ascii.eqb ch "#" = false).
  { intros ch H. apply Ascii.eqb_neq. by intros ->. }
  destruct (Z.to_int n) as [d|d]; cbn [NilZero.string_of_int];
    destruct (str_of_uint_shape d) as (c0 & rest & -> & H0 & Hrest).
  - destruct rest as [|c1 rest]; simpl; [by eexists|].
    exists c1. split; [done|]. apply Hdig. cbn in Hrest.
    by destruct (is_dec_digit c1).
  - simpl. eauto.
Qed.

Lemma py_bind_Return {A B} (m : py A) (k : A -> py B) out :
  m ≫= k = Return out -> exists v, m = Return v /\ k v = Return out.
Proof. destruct m as [v|e]; [eauto|discriminate]. Qed.

(** X11: normalization is idempotent: the text it returns for a record is
    left as it is by a second normalization, so that every address of a
    result is a fixed point of [normalize]. *)
Theorem normalize_idempotent record out :
  normalize record = Return out -> normalize out = Return out.
Proof.
  unfold normalize at 1. intros H.
  apply py_bind_Return in H as (second & Hget & H).
  destruct (Ascii.eqb second "#") eqn:Hsec.
  - apply py_bind_Return in H as (a & _ & H).
    apply py_bind_Return in H as (b & _ & H).
    apply py_bind_Return in H as (c & _ & H).
    apply py_bind_Return in H as (d & _ & H).
    injection H as <-.
    destruct (str_of_int_second a
                (str_of_int b +:+ "." +:+ str_of_int c +:+ "." +:+
                 str_of_int d)) as (ch & Hch & Hne).
    unfold normalize, py_index. rewrite Hch. cbn [mbind py_bind].
    by rewrite Hne.
  - injection H as <-. unfold normalize. rewrite Hget.
    cbn [mbind py_bind]. by rewrite Hsec.
Qed.

Lemma normalize_idempotent_witness :
  normalize "192.168.1.1" = Return "192.168.1.1".
Proof. apply (normalize_idempotent "\# 4 C0A80101"). reflexivity. Defined.

(** * Properties of hcpsdk.namespace *)

(** ** _castVar *)

Lemma append_empty_r (s : string) : s +:+ "" = s.
Proof. induction s as [|ch s IH]; [done|]. by rewrite <- IH at 2. Qed.

Lemma rev_app_rev_app (s1 s2 s3 : string) :
  String.rev_app (String.rev_app s1 s2) s3 = String.rev_app s2 (s1 +:+ s3).
Proof.
  revert s2. induction s1 as [|ch s1 IH]; intros s2; [done|].
  cbn [String.rev_app]. by rewrite IH.
Qed.

Lemma rev_involutive_string (s : string) : String.rev (String.rev s) = s.
Proof.
  unfold String.rev. rewrite rev_app_rev_app. cbn [String.rev_app].
  apply append_empty_r.
Qed.

Lemma all_chars_rev_app p (s1 s2 : string) :
  all_chars p (String.rev_app s1 s2) = all_chars p s1 && all_chars p s2.
Proof.
  revert s2. induction s1 as [|ch s1 IH]; intros s2; [done|].
  cbn [String.rev_app all_chars]. rewrite IH. cbn [all_chars].
  by destruct (p ch), (all_chars p s1).
Qed.

Lemma all_chars_rev p (s : string) :
  all_chars p (String.rev s) = all_chars p s.
Proof. unfold String.rev. rewrite all_chars_rev_app. apply andb_true_r. Qed.

Lemma all_chars_impl (p q : ascii -> bool) s :
  (forall ch, p ch = true -> q ch = true) ->
  all_chars p s = true -> all_chars q s = true.
Proof.
  intros Hpq. induction s as [|ch s IH]; simpl; [done|].
  intros [H1 H2]%andb_true_iff. by rewrite (Hpq _ H1), IH.
Qed.

Lemma lstrip_no_space s :
  all_chars (fun ch => negb (is_space ch)) s = true -> lstrip s = s.
Proof.
  destruct s as [|ch s]; simpl; [done|].
  intros [H _]%andb_true_iff. by destruct (is_space ch).
Qed.

Lemma strip_no_space s :
  all_chars (fun ch => negb (is_space ch)) s = true -> strip s = s.
Proof.
  intros H. unfold strip. rewrite (lstrip_no_space s H).
  rewrite lstrip_no_space by (by rewrite all_chars_rev).
  apply rev_involutive_string.
Qed.

Lemma is_dec_digit_cases ch :
  is_dec_digit ch = true ->
  In ch ["0"; "1"; "2"; "3"; "4"; "5"; "6"; "7"; "8"; "9"]%char.
Proof.
  intros H.
  destruct ch as [[] [] [] [] [] [] [] []]; vm_compute in H;
    try discriminate H; vm_compute; tauto.
Qed.

Lemma digit_not_space ch : is_dec_digit ch = true -> is_space ch = false.
Proof.
  intros H%is_dec_digit_cases. cbn in H.
  repeat (destruct H as [<-|H]; [reflexivity|]). destruct H.
Qed.

Lemma count_digits_all s :
  all_chars is_dec_digit s = true -> count_digits s = String.length s.
Proof.
  induction s as [|ch s IH]; simpl; [done|].
  intros [H1 H2]%andb_true_iff. by rewrite H1, IH.
Qed.

(** Reading the digits of a positive number written by the library. *)
Lemma dec_digits_step seen acc ch d rest :
  dec_digit ch = Some d -> Ascii.eqb ch "_" = false ->
  dec_digits seen false acc (String ch rest) =
  dec_digits true false (10 * acc + d) rest.
Proof. intros Hd Hu. cbn [dec_digits]. by rewrite Hu, Hd. Qed.

Lemma dec_digits_of_uint_acc d : forall (acc : positive) seen,
  dec_digits seen false (Z.pos acc) (NilEmpty.string_of_uint d) =
  if seen || negb (String.eqb (NilEmpty.string_of_uint d) "")
  then Some (Z.pos (Pos.of_uint_acc d acc)) else None.
Proof.
  induction d; intros acc seen;
    cbn [NilEmpty.string_of_uint Pos.of_uint_acc];
    [by destruct seen|..];
    (match goal with
     | |- dec_digits _ _ _ (String ?c _) = _ =>
         let v := eval vm_compute in (dec_digit c) in
         match v with
         | Some ?k => rewrite (dec_digits_step _ _ c k) by reflexivity
         end
     end;
     rewrite orb_true_r;
     match goal with
     | |- dec_digits true false ?z _ = Some (Z.pos (Pos.of_uint_acc _ ?p)) =>
         replace z with (Z.pos p) by lia
     end; by rewrite IHd).
Qed.

Lemma dec_digits_of_uint d : forall seen,
  dec_digits seen false 0 (NilEmpty.string_of_uint d) =
  if seen || negb (String.eqb (NilEmpty.string_of_uint d) "")
  then Some (Z.of_N (Pos.of_uint d)) else None.
Proof.
  induction d; intros seen; cbn [NilEmpty.string_of_uint Pos.of_uint];
    [by destruct seen|..];
    (match goal with
     | |- dec_digits _ _ _ (String ?c _) = _ =>
         let v := eval vm_compute in (dec_digit c) in
         match v with
         | Some ?k => rewrite (dec_digits_step _ _ c k) by reflexivity
         end
     end;
     rewrite orb_true_r;
     match goal with
     | |- dec_digits true false ?z _ = _ =>
         let z' := eval vm_compute in z in change z with z'
     end;
     first [rewrite IHd | rewrite dec_digits_of_uint_acc]; reflexivity).
Qed.

Lemma uint_string_nonempty d :
  d <> Decimal.Nil -> String.eqb (NilEmpty.string_of_uint d) "" = false.
Proof. by destruct d. Qed.

Lemma digits_no_space s :
  all_chars is_dec_digit s = true ->
  all_chars (fun ch => negb (is_space ch)) s = true.
Proof.
  apply all_chars_impl. intros ch H. by rewrite digit_not_space.
Qed.

Lemma py_int10_unsigned limit d :
  d <> Decimal.Nil ->
  within_digit_limit limit (NilEmpty.string_of_uint d) = true ->
  py_int10 limit (NilEmpty.string_of_uint d) = Return (Z.of_N (Pos.of_uint d)).
Proof.
  intros Hd Hlim. unfold py_int10.
  rewrite strip_no_space by apply digits_no_space, string_of_uint_digits.
  pose proof (dec_digits_of_uint d false) as Hv.
  rewrite (uint_string_nonempty d Hd) in Hv. cbn [negb orb] in Hv.
  pose proof (string_of_uint_digits d) as Hall.
  destruct (NilEmpty.string_of_uint d) as [|c0 rest] eqn:E;
    [by destruct d|].
  cbn [all_chars] in Hall. apply andb_true_iff in Hall as [H0 _].
  apply is_dec_digit_cases in H0. cbn in H0.
  repeat (destruct H0 as [<-|H0]; [by rewrite Hv, Hlim|]). destruct H0.
Qed.

Lemma py_int10_negative limit d :
  d <> Decimal.Nil ->
  within_digit_limit limit (NilEmpty.string_of_uint d) = true ->
  py_int10 limit (String "-" (NilEmpty.string_of_uint d)) =
  Return (- Z.of_N (Pos.of_uint d))%Z.
Proof.
  intros Hd Hlim. unfold py_int10.
  rewrite strip_no_space.
  - rewrite dec_digits_of_uint, (uint_string_nonempty d Hd), Hlim. done.
  - cbn [all_chars]. by rewrite digits_no_space by apply string_of_uint_digits.
Qed.

Lemma starts_with_digit_not_keyword c0 rest :
  is_dec_digit c0 = true \/ c0 = "-"%char ->
  String.eqb (String c0 rest) "true" = false /\
  String.eqb (String c0 rest) "false" = false.
Proof.
  intros [H%is_dec_digit_cases| ->]; [|done]. cbn in H.
  repeat (destruct H as [<-|H]; [done|]). destruct H.
Qed.

(** X12: [_castVar] undoes [str] on integers: the decimal text of any
    integer, within the interpreter's limit on the digits of a literal, is
    cast back to that integer. *)
Theorem _castVar_of_str_of_int limit n :
  within_digit_limit limit (str_of_int n) = true ->
  _castVar limit (str_of_int n) = VInt n.
Proof.
  unfold str_of_int. intros Hlim.
  rewrite <- (DecimalZ.of_to n) at 2.
  assert (Hnil : match Z.to_int n with
                 | Decimal.Pos d | Decimal.Neg d => d <> Decimal.Nil
                 end).
  { destruct n as [|p|p]; cbn [Z.to_int];
      [done|apply DecimalPos.Unsigned.to_uint_nonnil..]. }
  destruct (Z.to_int n) as [d|d];
    cbn [NilZero.string_of_int Z.of_int] in *; unfold Z.of_uint;
    assert (E : NilZero.string_of_uint d = NilEmpty.string_of_uint d)
      by (by destruct d);
    rewrite E in *; unfold _castVar.
  - pose proof (string_of_uint_digits d) as Hall.
    rewrite (py_int10_unsigned limit _ Hnil Hlim).
    destruct (NilEmpty.string_of_uint d) as [|c0 rest] eqn:Es;
      [by destruct d|].
    cbn [all_chars] in Hall. apply andb_true_iff in Hall as [H0 _].
    destruct (starts_with_digit_not_keyword c0 rest (or_introl H0))
      as [-> ->]. done.
  - rewrite (py_int10_negative limit _ Hnil) by exact Hlim.
    destruct (starts_with_digit_not_keyword "-"
                (NilEmpty.string_of_uint d) (or_intror eq_refl))
      as [-> ->]. done.
Qed.

Lemma _castVar_of_str_of_int_witness :
  _castVar 4300 (str_of_int (-2015)) = VInt (-2015).
Proof. apply (_castVar_of_str_of_int 4300 (-2015)). reflexivity. Defined.

(** ** The [finally] clause of the methods *)

(** X13: when the connection cannot be made, each of the four methods
    raises [UnboundLocalError] for [con], not the [HcpsdkError] its handler
    builds: the [finally] clause calls [con.close()] on a variable that was
    never bound. The object is left as it was. *)
Theorem connection_failure_raises_UnboundLocalError
    {Target Time} (hcp : Hcp Target Time) (self : info Target Time) msg all :
  hcpsdk_connection hcp (target self) (debuglevel self) = ConnectRaise msg ->
  NSstatistics hcp self = (self, NsRaise (UnboundLocalError "con")) /\
  listAccessibleNS hcp self all = (self, NsRaise (UnboundLocalError "con")) /\
  listRetentionClasses hcp self = (self, NsRaise (UnboundLocalError "con")) /\
  listPermissions hcp self = (self, NsRaise (UnboundLocalError "con")).
Proof.
  intros H.
  unfold NSstatistics, NSstatistics_try, listAccessibleNS,
    listAccessibleNS_try, listRetentionClasses, listRetentionClasses_try,
    listPermissions, listPermissions_try.
  by rewrite H.
Qed.

Lemma connection_failure_raises_UnboundLocalError_witness :
  NSstatistics hcp_unreachable sample_info =
    (sample_info, NsRaise (UnboundLocalError "con")) /\
  listAccessibleNS hcp_unreachable sample_info true =
    (sample_info, NsRaise (UnboundLocalError "con")) /\
  listRetentionClasses hcp_unreachable sample_info =
    (sample_info, NsRaise (UnboundLocalError "con")) /\
  listPermissions hcp_unreachable sample_info =
    (sample_info, NsRaise (UnboundLocalError "con")).
Proof.
  apply (connection_failure_raises_UnboundLocalError hcp_unreachable
           sample_info "connection refused" true).
  reflexivity.
Defined.

Lemma finally_never_HcpsdkError {Target Time D}
    (fr : frame Target Time D) why :
  snd (finally_close_return fr) <> NsRaise (HcpsdkError why).
Proof.
  unfold finally_close_return. cbn [snd].
  destruct (f_con fr) as [con|]; [|done].
  destruct (con_close con); [done|]. by destruct (f_d fr).
Qed.

(** X14: no [HcpsdkError] ever leaves a method of [info]: the [return] of
    the [finally] clause discards the ones the methods raise. *)
Theorem HcpsdkError_never_reaches_caller
    {Target Time} (hcp : Hcp Target Time) (self : info Target Time) why all :
  snd (NSstatistics hcp self) <> NsRaise (HcpsdkError why) /\
  snd (listAccessibleNS hcp self all) <> NsRaise (HcpsdkError why) /\
  snd (listRetentionClasses hcp self) <> NsRaise (HcpsdkError why) /\
  snd (listPermissions hcp self) <> NsRaise (HcpsdkError why).
Proof. repeat split; apply finally_never_HcpsdkError. Qed.

(** X15: [NSstatistics] reports a failed exchange as the value [None]: when
    the request raises, is answered with a status other than 200, or has a
    body that cannot be read or parsed, and [close()] returns, the call
    returns [None]; the connect time has been recorded. *)
Theorem NSstatistics_returns_None_on_failure
    {Target Time} (hcp : Hcp Target Time) (self : info Target Time) con :
  fails_after_connecting hcp self "/proc/statistics" con ->
  snd (NSstatistics hcp self) = NsReturn None /\
  connect_time (fst (NSstatistics hcp self)) = con_connect_time con.
Proof.
  intros (Hcon & Hclose & Hreq).
  unfold NSstatistics, NSstatistics_try, finally_close_return. rewrite Hcon.
  destruct (con_request con "GET" "/proc/statistics") as [msg|r];
    cbn [fst snd f_self f_con f_d]; [by rewrite Hclose|].
  destruct (status r =? 200)%Z eqn:Hst.
  - destruct Hreq as [Hne|Hbody]; [by apply Z.eqb_eq in Hst|].
    destruct (content r); cbn [fst snd f_self f_con f_d];
      by (rewrite Hclose || destruct Hbody).
  - cbn [fst snd f_self f_con f_d]. by rewrite Hclose.
Qed.

Lemma NSstatistics_returns_None_on_failure_witness :
  snd (NSstatistics (hcp_answering (HttpResponse 403 "Forbidden"
                                      (BodyXml sample_statistics)))
         sample_info) = NsReturn None /\
  connect_time
    (fst (NSstatistics (hcp_answering (HttpResponse 403 "Forbidden"
                                         (BodyXml sample_statistics)))
            sample_info)) = 12%Z.
Proof.
  apply (NSstatistics_returns_None_on_failure
           (hcp_answering (HttpResponse 403 "Forbidden"
                             (BodyXml sample_statistics)))
           sample_info
           (answering (HttpResponse 403 "Forbidden"
                         (BodyXml sample_statistics)))).
  split; [reflexivity|]. split; [reflexivity|]. left. discriminate.
Defined.



(** ** The dictionary of [NSstatistics] *)

Lemma statistics_loop_spec limit d : forall t,
  statistics_loop limit d t =
  (map (statistics_entry limit) d,
   match last (filter namespaced (map fst d)) with
   | Some k => Some k
   | None => t
   end).
Proof.
  induction d as [|[i v] d IH]; intros t; [done|].
  cbn [statistics_loop map fst]. unfold statistics_entry at 1.
  cbn [fst snd]. fold (namespaced i).
  destruct (namespaced i) eqn:Hi.
  - rewrite IH, filter_cons_True by (by apply Is_true_true_2).
    destruct (filter _ (map fst d)) as [|k ks] eqn:E; [done|].
    change (last (i :: k :: ks)) with (last (k :: ks)).
    destruct (last (k :: ks)) eqn:El; [done|].
    by apply last_None in El.
  - rewrite IH, filter_cons_False by (by apply Is_true_false_2). done.
Qed.

Lemma namespaced_truthy k : namespaced k = true -> truthy k = true.
Proof. by destruct k. Qed.

Lemma statistics_dict_spec limit root :
  statistics_dict limit root =
  match last (filter namespaced (map fst (attrib root))) with
  | Some k => dict_del (map (statistics_entry limit) (attrib root)) k
  | None => map (statistics_entry limit) (attrib root)
  end.
Proof.
  unfold statistics_dict. rewrite statistics_loop_spec.
  destruct (last _) as [k|] eqn:E; [|done].
  apply last_Some_elem_of, list_elem_of_filter in E as [Hk _].
  apply Is_true_true in Hk. by rewrite namespaced_truthy.
Qed.

Lemma dict_del_cons_ne {V} (d : list (string * V)) k v k0 :
  String.eqb k k0 = false -> dict_del ((k, v) :: d) k0 = (k, v) :: dict_del d k0.
Proof.
  intros H. unfold dict_del. rewrite filter_cons_True; [done|].
  cbn [fst]. rewrite H. exact I.
Qed.

Lemma dict_del_cons_eq {V} (d : list (string * V)) v k0 :
  dict_del ((k0, v) :: d) k0 = dict_del d k0.
Proof.
  unfold dict_del. rewrite filter_cons_False; [done|].
  cbn [fst]. rewrite String.eqb_refl. exact id.
Qed.

Lemma plain_cons_keep k v d :
  namespaced k = false -> filter plain ((k, v) :: d) = (k, v) :: filter plain d.
Proof.
  intros H. rewrite filter_cons_True; [done|]. unfold plain. cbn [fst].
  rewrite H. exact I.
Qed.

Lemma plain_cons_drop k v d :
  namespaced k = true -> filter plain ((k, v) :: d) = filter plain d.
Proof.
  intros H. rewrite filter_cons_False; [done|]. unfold plain. cbn [fst].
  rewrite H. exact id.
Qed.

Lemma statistics_entry_plain limit k v :
  namespaced k = false -> statistics_entry limit (k, v) = (k, _castVar limit v).
Proof. intros H. unfold statistics_entry. cbn [fst snd]. by rewrite H. Qed.

Lemma statistics_entry_namespaced limit k v :
  namespaced k = true -> statistics_entry limit (k, v) = (k, VStr v).
Proof. intros H. unfold statistics_entry. cbn [fst snd]. by rewrite H. Qed.

Lemma dict_del_plain limit d k0 :
  namespaced k0 = true ->
  filter namespaced (map fst d) = [] ->
  dict_del (map (statistics_entry limit) d) k0 = cast_all limit d /\
  filter plain d = d.
Proof.
  intros Hk0. induction d as [|[k v] d IH]; [done|]. cbn [map fst].
  destruct (namespaced k) eqn:Hk.
  - by rewrite filter_cons_True by (by apply Is_true_true_2).
  - rewrite filter_cons_False by (by apply Is_true_false_2). intros Hd.
    destruct (IH Hd) as [IH1 IH2].
    assert (Hne : String.eqb k k0 = false).
    { apply String.eqb_neq. intros ->. congruence. }
    rewrite statistics_entry_plain, dict_del_cons_ne, plain_cons_keep by done.
    by rewrite IH1, IH2.
Qed.

Lemma statistics_dict_drops_schema_attribute limit root :
  length (filter namespaced (map fst (attrib root))) <= 1 ->
  statistics_dict limit root = cast_all limit (filter plain (attrib root)).
Proof.
  rewrite statistics_dict_spec. generalize (attrib root) as d.
  intros d Hlen.
  destruct (filter namespaced (map fst d)) as [|k0 [|k1 ks]] eqn:E;
    [| |cbn in Hlen; lia].
  - cbn [last]. clear Hlen. induction d as [|[k v] d IH]; [done|].
    cbn [map fst] in E. destruct (namespaced k) eqn:Hk.
    + by rewrite filter_cons_True in E by (by apply Is_true_true_2).
    + rewrite filter_cons_False in E by (by apply Is_true_false_2).
      cbn [map]. rewrite statistics_entry_plain, plain_cons_keep by done.
      by rewrite (IH E).
  - cbn [last].
    assert (Hk0 : namespaced k0 = true).
    { assert (H : k0 ∈ filter namespaced (map fst d)) by (rewrite E; left).
      apply list_elem_of_filter in H as [H _]. by apply Is_true_true in H. }
    clear Hlen. revert E. induction d as [|[k v] d IH]; [done|].
    cbn [map fst]. destruct (namespaced k) eqn:Hk.
    + rewrite filter_cons_True by (by apply Is_true_true_2). intros [= -> E].
      destruct (dict_del_plain limit d k0 Hk0 E) as [H1 H2].
      rewrite statistics_entry_namespaced, dict_del_cons_eq, plain_cons_drop
        by done.
      by rewrite H1, H2.
    + rewrite filter_cons_False by (by apply Is_true_false_2). intros E.
      assert (Hne : String.eqb k k0 = false).
      { apply String.eqb_neq. intros ->. congruence. }
      rewrite statistics_entry_plain, dict_del_cons_ne, plain_cons_keep
        by done.
      by rewrite (IH E).
Qed.

Lemma statistics_dict_keeps_earlier_schema_attributes
    limit root pre k2 v2 post k1 v1 :
  attrib root = (pre ++ (k2, v2) :: post)%list ->
  namespaced k2 = true ->
  filter namespaced (map fst post) = [] ->
  (k1, v1) ∈ pre -> namespaced k1 = true -> k1 <> k2 ->
  (k1, VStr v1) ∈ statistics_dict limit root /\
  k2 ∉ map fst (statistics_dict limit root).
Proof.
  intros Hattr Hk2 Hpost Hin Hk1 Hne.
  rewrite statistics_dict_spec, Hattr.
  rewrite map_app, filter_app. cbn [map fst].
  rewrite filter_cons_True, Hpost by (by apply Is_true_true_2).
  rewrite last_snoc. unfold dict_del. split.
  - apply list_elem_of_filter. split.
    + cbn [fst]. apply Is_true_true, negb_true_iff, String.eqb_neq. done.
    + apply list_elem_of_fmap. exists (k1, v1). split.
      * unfold statistics_entry. cbn [fst snd]. by rewrite Hk1.
      * apply elem_of_app. by left.
  - intros ([k v] & -> & [Hf _]%list_elem_of_filter)%list_elem_of_fmap.
    cbn [fst] in Hf. by rewrite String.eqb_refl in Hf.
Qed.

Lemma NSstatistics_success {Target Time} (hcp : Hcp Target Time)
    (self : info Target Time) con root :
  answers hcp self "/proc/statistics" con root ->
  NSstatistics hcp self =
  (timed self con,
   NsReturn (Some (statistics_dict (int_max_str_digits hcp) root))).
Proof.
  intros (Hcon & Hclose & why & Hreq).
  unfold NSstatistics, NSstatistics_try, finally_close_return.
  rewrite Hcon, Hreq. cbn [status content Z.eqb Pos.eqb fst f_self f_con f_d].
  by rewrite Hclose.
Qed.

(** X17: when the exchange goes well and at most one attribute of the root
    has a key that starts with [{http], [NSstatistics] returns exactly the
    other attributes, in their order, each with its value cast, and records
    both times. *)
Theorem NSstatistics_returns_cast_attributes {Target Time}
    (hcp : Hcp Target Time) (self : info Target Time) con root :
  answers hcp self "/proc/statistics" con root ->
  length (filter namespaced (map fst (attrib root))) <= 1 ->
  NSstatistics hcp self =
  (timed self con,
   NsReturn (Some (cast_all (int_max_str_digits hcp)
                     (filter plain (attrib root))))).
Proof.
  intros Hans Hlen. rewrite (NSstatistics_success hcp self con root Hans).
  by rewrite statistics_dict_drops_schema_attribute.
Qed.

Lemma NSstatistics_returns_cast_attributes_witness :
  NSstatistics (hcp_answering (HttpResponse 200 "OK"
                                 (BodyXml sample_statistics))) sample_info =
  (timed sample_info (answering (HttpResponse 200 "OK"
                                   (BodyXml sample_statistics))),
   NsReturn (Some [("totalCapacityBytes", VInt 53687091200);
                   ("objectCount", VInt 12); ("softQuotaPercent", VInt 85)])).
Proof.
  apply (NSstatistics_returns_cast_attributes
           (hcp_answering (HttpResponse 200 "OK" (BodyXml sample_statistics)))
           sample_info
           (answering (HttpResponse 200 "OK" (BodyXml sample_statistics)))
           sample_statistics).
  - split; [reflexivity|]. split; [reflexivity|]. by exists "OK".
  - vm_compute. lia.
Defined.

(** X18: only the last key that starts with [{http] is deleted: when the
    exchange goes well and the attributes of the root hold such a key [k2]
    with none after it, [k2] is not a key of the dictionary [NSstatistics]
    returns, but any other such key before it is, with its value left as a
    string. *)
Theorem NSstatistics_keeps_earlier_schema_attributes {Target Time}
    (hcp : Hcp Target Time) (self : info Target Time) con root
    pre k2 v2 post k1 v1 :
  answers hcp self "/proc/statistics" con root ->
  attrib root = (pre ++ (k2, v2) :: post)%list ->
  namespaced k2 = true ->
  filter namespaced (map fst post) = [] ->
  (k1, v1) ∈ pre -> namespaced k1 = true -> k1 <> k2 ->
  exists d,
    snd (NSstatistics hcp self) = NsReturn (Some d) /\
    (k1, VStr v1) ∈ d /\ k2 ∉ map fst d.
Proof.
  intros Hans Hattr Hk2 Hpost Hin Hk1 Hne.
  rewrite (NSstatistics_success hcp self con root Hans).
  eexists. split; [reflexivity|].
  by eapply statistics_dict_keeps_earlier_schema_attributes.
Qed.

Lemma NSstatistics_keeps_earlier_schema_attributes_witness :
  exists d,
    snd (NSstatistics
           (hcp_answering
              (HttpResponse 200 "OK"
                 (BodyXml (Element "statistics"
                             [("{http://a}x", "1"); ("{http://b}y", "2");
                              ("n", "3")] None []))))
           sample_info) = NsReturn (Some d) /\
    ("{http://a}x", VStr "1") ∈ d /\ "{http://b}y" ∉ map fst d.
Proof.
  apply (NSstatistics_keeps_earlier_schema_attributes
           (hcp_answering
              (HttpResponse 200 "OK"
                 (BodyXml (Element "statistics"
                             [("{http://a}x", "1"); ("{http://b}y", "2");
                              ("n", "3")] None []))))
           sample_info
           (answering
              (HttpResponse 200 "OK"
                 (BodyXml (Element "statistics"
                             [("{http://a}x", "1"); ("{http://b}y", "2");
                              ("n", "3")] None []))))
           (Element "statistics"
              [("{http://a}x", "1"); ("{http://b}y", "2"); ("n", "3")]
              None [])
           [("{http://a}x", "1")] "{http://b}y" "2" [("n", "3")]
           "{http://a}x" "1").
  - split; [reflexivity|]. split; [reflexivity|]. by exists "OK".
  - reflexivity.
  - reflexivity.
  - reflexivity.
  - left.
  - reflexivity.
  - discriminate.
Defined.

(** ** Dictionaries kept in the order of their keys *)

Lemma od_get_set {K V} `{EqDecision K} (d : list (K * V)) k v k' :
  od_get (od_set d k v) k' = if decide (k = k') then Some v else od_get d k'.
Proof.
  induction d as [|[k0 v0] d IH]; cbn [od_set od_get].
  - by destruct (decide (k = k')).
  - destruct (decide (k0 = k)) as [->|E0]; cbn [od_get].
    + by destruct (decide (k = k')).
    + rewrite IH. destruct (decide (k0 = k')) as [->|E1]; [|done].
      by rewrite decide_False by done.
Qed.

Lemma od_set_keys {K V} `{EqDecision K} (d : list (K * V)) k v :
  map fst (od_set d k v) =
  if decide (k ∈ map fst d) then map fst d else (map fst d ++ [k])%list.
Proof.
  induction d as [|[k0 v0] d IH]; cbn [od_set map fst]; [done|].
  destruct (decide (k0 = k)) as [->|E0]; cbn [map fst].
  - by rewrite decide_True by left.
  - rewrite IH. destruct (decide (k ∈ map fst d)) as [Hin|Hin].
    + by rewrite decide_True by (by right).
    + rewrite decide_False; [done|]. by intros [?|?]%elem_of_cons.
Qed.

Lemma od_set_NoDup {K V} `{EqDecision K} (d : list (K * V)) k v :
  NoDup (map fst d) -> NoDup (map fst (od_set d k v)).
Proof.
  intros H0. rewrite od_set_keys. destruct (decide _) as [Hin|Hin]; [done|].
  apply NoDup_app. split; [done|]. split; [|apply NoDup_singleton].
  intros x Hx ->%list_elem_of_singleton. done.
Qed.

(** A dictionary built by one assignment per element of a list: the value
    of a key comes from the last element with that key, and no key stands
    twice. *)
Lemma od_fold_last {A K V} `{EqDecision K} (key : A -> K) (val : A -> V) k :
  forall (l : list A) (d0 : list (K * V)),
    od_get (fold_left (fun d n => od_set d (key n) (val n)) l d0) k =
    match last (filter (fun n => key n = k) l) with
    | Some n => Some (val n)
    | None => od_get d0 k
    end /\
    (NoDup (map fst d0) ->
     NoDup (map fst (fold_left (fun d n => od_set d (key n) (val n)) l d0))).
Proof.
  induction l as [|n l IH]; intros d0; [done|]. cbn [fold_left].
  destruct (IH (od_set d0 (key n) (val n))) as [IH1 IH2].
  split; [|intros Hd; by apply IH2, od_set_NoDup].
  rewrite IH1, od_get_set.
  destruct (decide (key n = k)) as [E|E].
  - rewrite filter_cons_True by done.
    destruct (filter _ l) as [|m ms]; [done|].
    change (last (n :: m :: ms)) with (last (m :: ms)).
    destruct (last (m :: ms)) eqn:El; [done|]. by apply last_None in El.
  - by rewrite filter_cons_False by done.
Qed.

(** ** The dictionary of [listPermissions] *)

(** X19: when the exchange goes well, [listPermissions] returns a
    dictionary with one entry per tag: the entry of a tag holds the cast
    attributes of the last sub-element of the root with that tag (an earlier
    one with the same tag is overwritten), and no tag is a key twice. *)
Theorem listPermissions_last_element_wins {Target Time}
    (hcp : Hcp Target Time) (self : info Target Time) con root :
  answers hcp self "/proc/permissions" con root ->
  exists d,
    listPermissions hcp self = (timed self con, NsReturn d) /\
    NoDup (map fst d) /\
    forall t,
      od_get d t =
      (fun n => cast_all (int_max_str_digits hcp) (attrib n)) <$>
        last (filter (fun n => tag n = t) (children root)).
Proof.
  intros (Hcon & Hclose & why & Hreq).
  exists (permissions_dict (int_max_str_digits hcp) root).
  split; [|split].
  - unfold listPermissions, listPermissions_try, finally_close_return.
    rewrite Hcon, Hreq.
    cbn [status content Z.eqb Pos.eqb fst f_self f_con f_d].
    by rewrite Hclose.
  - unfold permissions_dict.
    apply (od_fold_last tag
             (fun n => cast_all (int_max_str_digits hcp) (attrib n)) ""
             (children root) []).
    constructor.
  - intros t. unfold permissions_dict.
    destruct (od_fold_last tag
                (fun n => cast_all (int_max_str_digits hcp) (attrib n)) t
                (children root) []) as [-> _].
    by destruct (last _).
Qed.

Lemma listPermissions_last_element_wins_witness :
  exists d,
    listPermissions (hcp_answering (HttpResponse 200 "OK"
                                      (BodyXml sample_permissions)))
      sample_info =
      (timed sample_info (answering (HttpResponse 200 "OK"
                                       (BodyXml sample_permissions))),
       NsReturn d) /\
    NoDup (map fst d) /\
    forall t,
      od_get d t =
      (fun n => cast_all 4300 (attrib n)) <$>
        last (filter (fun n => tag n = t) (children sample_permissions)).
Proof.
  apply (listPermissions_last_element_wins
           (hcp_answering (HttpResponse 200 "OK" (BodyXml sample_permissions)))
           sample_info
           (answering (HttpResponse 200 "OK" (BodyXml sample_permissions)))
           sample_permissions).
  split; [reflexivity|]. split; [reflexivity|]. by exists "OK".
Defined.

(** ** The named listings *)

#[local] Open Scope list_scope.

Lemma od_get_app {K V} `{EqDecision K} (l1 l2 : list (K * V)) k :
  od_get (l1 ++ l2) k =
  match od_get l1 k with Some v => Some v | None => od_get l2 k end.
Proof.
  induction l1 as [|[k0 v0] l1 IH]; cbn [app od_get]; [done|].
  by destruct (decide (k0 = k)).
Qed.

Lemma od_get_map {K V W} `{EqDecision K} (f : V -> W) (l : list (K * V)) k :
  od_get (map (fun e => (fst e, f (snd e))) l) k = f <$> od_get l k.
Proof.
  induction l as [|[k0 v0] l IH]; cbn [map od_get fst snd]; [done|].
  by destruct (decide (k0 = k)).
Qed.

Lemma od_get_None {K V} `{EqDecision K} (l : list (K * V)) k :
  k ∉ map fst l -> od_get l k = None.
Proof.
  induction l as [|[k0 v0] l IH]; cbn [map od_get fst]; [done|].
  intros Hk. destruct (decide (k0 = k)) as [->|E].
  - destruct Hk. left.
  - apply IH. intros Hin. apply Hk. by right.
Qed.

Lemma od_set_app_r {K V} `{EqDecision K} (l1 l2 : list (K * V)) k v :
  k ∉ map fst l1 -> od_set (l1 ++ l2) k v = (l1 ++ od_set l2 k v)%list.
Proof.
  induction l1 as [|[k0 v0] l1 IH]; cbn [app map od_set fst]; [done|].
  intros Hk. destruct (decide (k0 = k)) as [->|E].
  - destruct Hk. left.
  - rewrite IH; [done|]. intros Hin. apply Hk. by right.
Qed.

Lemma od_set_twice {K V} `{EqDecision K} (l : list (K * V)) k v1 v2 :
  od_set (od_set l k v1) k v2 = od_set l k v2.
Proof.
  induction l as [|[k0 v0] l IH]; cbn [od_set].
  - by rewrite decide_True.
  - destruct (decide (k0 = k)) as [->|E]; cbn [od_set].
    + by rewrite decide_True.
    + by rewrite decide_False, IH.
Qed.

(** The state of [n.attrib] when the entries [done] have been cast and the
    entries [todo] have not. *)
Lemma cast_in_place_step limit done k v todo :
  NoDup (map fst (done ++ (k, v) :: todo)) ->
  cast_in_place limit (map fst ((k, v) :: todo))
    (cast_all limit done ++ raw ((k, v) :: todo)) =
  match name_key (cast_all limit done ++ raw ((k, v) :: todo)) with
  | NsRaise e => (cast_all limit done ++ raw ((k, v) :: todo), Some e)
  | NsReturn _ =>
      cast_in_place limit (map fst todo)
        (cast_all limit (done ++ [(k, v)]) ++ raw todo)
  end.
Proof.
  intros Hnd. cbn [map fst cast_in_place].
  destruct (name_key _) as [k0|e]; [|done].
  assert (Hk : k ∉ map fst (cast_all limit done)).
  { unfold cast_all. rewrite map_map. cbn [fst].
    rewrite map_app in Hnd. apply NoDup_app in Hnd as (_ & Hd & _).
    intros Hin. apply (Hd k Hin). left. }
  rewrite od_get_app, (od_get_None _ _ Hk). cbn [raw map od_get fst snd].
  rewrite decide_True by done. cbn [cast_value].
  rewrite od_set_app_r by done. cbn [od_set]. rewrite decide_True by done.
  f_equal. unfold cast_all, raw. rewrite map_app. cbn [map fst snd].
  by rewrite <- app_assoc.
Qed.

Lemma name_of_partly_cast limit done todo :
  od_get (cast_all limit done ++ raw todo) "name" =
  match od_get done "name" with
  | Some s => Some (_castVar limit s)
  | None => VStr <$> od_get todo "name"
  end.
Proof.
  rewrite od_get_app. unfold cast_all, raw. rewrite !od_get_map.
  by destruct (od_get done "name").
Qed.


(** It completes when the name stays a string. *)
Lemma cast_in_place_keeps_name limit todo : forall done,
  NoDup (map fst (done ++ todo)) ->
  (forall s, od_get (done ++ todo) "name" = Some s ->
             _castVar limit s = VStr s) ->
  cast_in_place limit (map fst todo) (cast_all limit done ++ raw todo) =
  (cast_all limit (done ++ todo), None).
Proof.
  induction todo as [|[k v] todo IH]; intros done Hnd Hname.
  - cbn [map cast_in_place raw]. by rewrite !app_nil_r.
  - rewrite cast_in_place_step by done.
    assert (Hkey : exists k0,
              name_key (cast_all limit done ++ raw ((k, v) :: todo)) =
              NsReturn k0).
    { unfold name_key. rewrite name_of_partly_cast.
      rewrite od_get_app in Hname.
      destruct (od_get done "name") as [s|].
      - rewrite (Hname s eq_refl). eauto.
      - destruct (od_get ((k, v) :: todo) "name"); cbn; eauto. }
    destruct Hkey as [k0 ->].
    rewrite IH; rewrite <- ?app_assoc; done.
Qed.

Lemma name_key_cast_all limit n :
  keeps_name limit n ->
  name_key (cast_all limit (attrib n)) = NsReturn (element_name n).
Proof.
  intros Hk. unfold name_key, cast_all, element_name in *.
  rewrite od_get_map.
  unfold keeps_name, element_name in Hk.
  destruct (od_get (attrib n) "name") as [s|]; [|done].
  cbn. by rewrite (Hk s eq_refl).
Qed.

Lemma name_key_described a v :
  name_key (od_set a "description" v) = name_key a.
Proof. unfold name_key. rewrite od_get_set. by rewrite decide_False. Qed.

Lemma retention_description_good subs : forall a k0,
  name_key a = NsReturn k0 -> Forall has_text subs ->
  retention_description subs a =
  (match last subs with
   | Some n1 => od_set a "description" (VStr (py_strip (default "" (text n1))))
   | None => a
   end, None).
Proof.
  induction subs as [|n1 subs IH]; intros a k0 Hkey Hall; [done|].
  apply Forall_cons in Hall as [Ht Hall]. cbn [retention_description].
  unfold has_text in Ht. destruct (text n1) as [t|] eqn:Et; [|done].
  rewrite Hkey, (IH _ k0); [|by rewrite name_key_described|done].
  destruct subs as [|n2 subs]; [cbn [last]; by rewrite Et|].
  change (last (n1 :: n2 :: subs)) with (last (n2 :: subs)).
  destruct (last (n2 :: subs)) eqn:El; [|by apply last_None in El].
  by rewrite od_set_twice.
Qed.

Lemma named_loop_good limit describe (entry : element -> attrs) ns :
  Forall (fun n =>
            NoDup (map fst (attrib n)) /\ keeps_name limit n /\
            describe (children n) (cast_all limit (attrib n)) =
              (entry n, None)) ns ->
  forall d,
    named_loop limit describe ns d =
    (fold_left (fun d n => od_set d (element_name n) (entry n)) ns d, None).
Proof.
  induction 1 as [|n ns (Hnd & Hname & Hdesc) _ IH]; intros d; [done|].
  cbn [named_loop fold_left].
  pose proof (cast_in_place_keeps_name limit (attrib n) [] Hnd Hname) as Hc.
  cbn [cast_all map app] in Hc. fold (cast_all limit (attrib n)) in Hc.
  rewrite Hc, Hdesc. apply IH.
Qed.

(** X20: when the exchange goes well and every class has a name that
    [_castVar] leaves a string (or no name), attributes with distinct keys,
    and sub-elements that all have a text, [listRetentionClasses] returns a
    dictionary in which the entry of a name holds the cast attributes of the
    last class with that name, with the stripped text of its last
    sub-element as description; no name is a key twice. *)
Theorem listRetentionClasses_lists_every_class {Target Time}
    (hcp : Hcp Target Time) (self : info Target Time) con root :
  answers hcp self "/proc/retentionClasses" con root ->
  Forall (fun n =>
            NoDup (map fst (attrib n)) /\
            keeps_name (int_max_str_digits hcp) n /\
            Forall has_text (children n)) (children root) ->
  exists d,
    listRetentionClasses hcp self = (timed self con, NsReturn d) /\
    NoDup (map fst d) /\
    forall k,
      od_get d k =
      retention_entry (int_max_str_digits hcp) <$>
        last (filter (fun n => element_name n = k) (children root)).
Proof.
  intros (Hcon & Hclose & why & Hreq) Hall.
  set (limit := int_max_str_digits hcp) in *.
  assert (Hloop : named_loop limit retention_description (children root) [] =
                  (fold_left (fun d n => od_set d (element_name n)
                                           (retention_entry limit n))
                     (children root) [], None)).
  { apply named_loop_good. eapply Forall_impl; [exact Hall|].
    intros n (Hnd & Hname & Htext). split; [done|]. split; [done|].
    by rewrite (retention_description_good _ _ (element_name n))
      by (by try apply name_key_cast_all). }
  eexists. split; [|split].
  - unfold listRetentionClasses, listRetentionClasses_try,
      finally_close_return.
    rewrite Hcon, Hreq.
    cbn [status content Z.eqb Pos.eqb]. fold limit. rewrite Hloop.
    cbn [fst f_self f_con f_d]. by rewrite Hclose.
  - apply (od_fold_last element_name (retention_entry limit) None
             (children root) []). constructor.
  - intros k.
    destruct (od_fold_last element_name (retention_entry limit) k
                (children root) []) as [-> _].
    by destruct (last _).
Qed.

Lemma listRetentionClasses_lists_every_class_witness :
  exists d,
    listRetentionClasses
      (hcp_answering (HttpResponse 200 "OK" (BodyXml sample_classes_named)))
      sample_info =
      (timed sample_info
         (answering (HttpResponse 200 "OK" (BodyXml sample_classes_named))),
       NsReturn d) /\
    NoDup (map fst d) /\
    forall k,
      od_get d k =
      retention_entry 4300 <$>
        last (filter (fun n => element_name n = k)
                (children sample_classes_named)).
Proof.
  apply (listRetentionClasses_lists_every_class
           (hcp_answering
              (HttpResponse 200 "OK" (BodyXml sample_classes_named)))
           sample_info
           (answering (HttpResponse 200 "OK" (BodyXml sample_classes_named)))
           sample_classes_named).
  - split; [reflexivity|]. split; [reflexivity|]. by exists "OK".
  - repeat constructor;
      try (apply (bool_decide_unpack _); vm_compute; exact I);
      try (intros s [= <-]; vm_compute; reflexivity);
      discriminate.
Defined.










(** * Properties of the node selection of [LogsShell] *)

Lemma select_nodes_spec n pieces : forall selected printed,
  select_nodes n pieces selected printed =
  (selected ++ filter (fun x => x ∈ n) pieces,
   printed ++ map (fun x => "invalid: " +:+ x)
                (filter (fun x => x ∉ n) pieces)).
Proof.
  induction pieces as [|x pieces IH]; intros selected printed.
  - cbn [select_nodes filter map]. by rewrite !app_nil_r.
  - cbn [select_nodes]. destruct (bool_decide (x ∈ n)) eqn:E.
    + apply bool_decide_eq_true in E. rewrite IH.
      rewrite filter_cons_True, filter_cons_False by (done || by intros []).
      by rewrite <- app_assoc.
    + apply bool_decide_eq_false in E. rewrite IH.
      rewrite filter_cons_False, filter_cons_True by done.
      cbn [map]. by rewrite <- app_assoc.
Qed.

(** X22: [do_nodes] with an argument selects exactly the pieces of the
    argument (between commas) that are the fourth part of an address of the
    target, in their order, and prints one line [invalid: ...] for each
    other piece, in their order; every piece is either selected or reported,
    and the other selections are untouched. *)
Theorem do_nodes_selects_known_nodes addresses arg self n :
  truthy arg = true -> node_ids addresses = Return n ->
  exists self' printed,
    do_nodes addresses arg self = (self', printed, Return tt) /\
    nodes self' = filter (fun x => x ∈ n) (py_split "," arg) /\
    printed = map (fun x => "invalid: " +:+ x)
                (filter (fun x => x ∉ n) (py_split "," arg)) /\
    length (nodes self') + length printed = length (py_split "," arg) /\
    snodes self' = snodes self /\ logs self' = logs self.
Proof.
  intros Harg Hn. unfold do_nodes. rewrite Harg, Hn, select_nodes_spec.
  do 2 eexists. split; [reflexivity|]. cbn [app nodes set_nodes snodes logs].
  repeat split. rewrite length_map.
  induction (py_split "," arg) as [|x l IH]; [done|].
  destruct (decide (x ∈ n)).
  - rewrite filter_cons_True, filter_cons_False by (done || by intros []).
    cbn [length]. lia.
  - rewrite filter_cons_False, filter_cons_True by done. cbn [length]. lia.
Qed.

Lemma do_nodes_selects_known_nodes_witness :
  exists self' printed,
    do_nodes ["10.0.0.101"; "10.0.0.102"] "102,7,101"
      {| nodes := ["101"]; snodes := ["s1"]; logs := [] |} =
      (self', printed, Return tt) /\
    nodes self' = filter (fun x => x ∈ ["101"; "102"]) (py_split "," "102,7,101") /\
    printed = map (fun x => "invalid: " +:+ x)
                (filter (fun x => x ∉ ["101"; "102"])
                   (py_split "," "102,7,101")) /\
    length (nodes self') + length printed =
      length (py_split "," "102,7,101") /\
    snodes self' = ["s1"] /\ logs self' = [].
Proof.
  apply (do_nodes_selects_known_nodes ["10.0.0.101"; "10.0.0.102"] "102,7,101"
           {| nodes := ["101"]; snodes := ["s1"]; logs := [] |}
           ["101"; "102"]); reflexivity.
Defined.

Lemma node_ids_short addresses x :
  x ∈ addresses -> length (py_split "." x) < 4 ->
  node_ids addresses = Raise IndexError.
Proof.
  intros Hin Hshort. induction addresses as [|y rest IH]; [by apply elem_of_nil in Hin|].
  cbn [node_ids]. unfold py_item at 1.
  destruct (py_split "." y !! 3) as [p|] eqn:E; [|done].
  cbn [mbind py_bind]. apply elem_of_cons in Hin as [->|Hin].
  - apply lookup_lt_Some in E. lia.
  - by rewrite IH.
Qed.

(** X23: when an address of the target has fewer than four parts between
    dots, [do_nodes] with an argument raises [IndexError]; it has already
    emptied the selection of nodes, and it prints nothing. *)
Theorem do_nodes_short_address addresses arg self x :
  truthy arg = true -> x ∈ addresses -> length (py_split "." x) < 4 ->
  do_nodes addresses arg self = (set_nodes self [], [], Raise IndexError).
Proof.
  intros Harg Hin Hshort. unfold do_nodes.
  by rewrite Harg, (node_ids_short addresses x).
Qed.

Lemma do_nodes_short_address_witness :
  do_nodes ["10.0.0.101"; "localhost"] "101"
    {| nodes := ["101"]; snodes := []; logs := [] |} =
  (set_nodes {| nodes := ["101"]; snodes := []; logs := [] |} [], [],
   Raise IndexError).
Proof.
  apply (do_nodes_short_address ["10.0.0.101"; "localhost"] "101"
           {| nodes := ["101"]; snodes := []; logs := [] |} "localhost").
  - reflexivity.
  - right. left.
  - vm_compute. lia.
Defined.
